(** * Qualys agent duplicate removal: a shallow embedding of
    [qualys_agent_duplicate_removal.py] and the properties of its three
    stages (inventory fetcher, duplicate selector, agent remover).

    The pandas DataFrame is a list of labelled rows (index label, row), in
    frame order.  The remote API is an oracle that answers each request from
    the history of the requests made so far; the log file and the sequence of
    network events are threaded through a small state-and-exception monad. *)

From Stdlib Require Import String Ascii ZArith Bool Arith Lia List.
From Stdlib Require Import Permutation OrdersEx.
Import ListNotations.

Set Implicit Arguments.

(* ================================================================== *)
(** * Data model *)

(** A pandas timestamp after [tz_localize(None)]: nanoseconds since the
    epoch, or [NaT] (what [errors="coerce"] leaves for an unparseable
    string). *)
Definition Timestamp : Type := option Z.
Definition NaT : Timestamp := None.

(** One row of [agents_data]; [T] is the dtype of the two date columns:
    [string] while the pages are accumulated, [Timestamp] once converted. *)
Record Row (T : Type) : Type := mkRow {
  id : string;
  hostname : string;
  address : string;
  created : T;
  modified : T
}.

Definition Label : Type := nat.

(** A DataFrame: rows in frame order, each with its index label. *)
Definition DataFrame (T : Type) : Type := list (Label * Row T).

Definition index (T : Type) (df : DataFrame T) : list Label := map fst df.

Definition col (T A : Type) (f : Row T -> A) (df : DataFrame T) : list A :=
  map (fun x => f (snd x)) df.

(** [df.empty] *)
Definition empty (T : Type) (df : DataFrame T) : bool :=
  match df with [] => true | _ :: _ => false end.

(** The grouping key, the column subset ["hostname", "address"]. *)
Definition Key : Type := (string * string)%type.

Definition key_of (T : Type) (r : Row T) : Key := (hostname r, address r).

Definition key_eqb (a b : Key) : bool :=
  (String.eqb (fst a) (fst b) && String.eqb (snd a) (snd b))%bool.

(* ================================================================== *)
(** * The pandas operations used by the selector *)

(** [keep="first"] and [keep=False] of [duplicated] / [drop_duplicates]. *)
Inductive Keep : Type := KeepFirst | KeepFalse.

Fixpoint count_key (k : Key) (ks : list Key) : nat :=
  match ks with
  | [] => 0
  | k' :: t => (if key_eqb k k' then 1 else 0) + count_key k t
  end.

(** [keep="first"]: a row is marked when its key was met in an earlier row. *)
Fixpoint seen_before (seen : list Key) (ks : list Key) : list bool :=
  match ks with
  | [] => []
  | k :: t => existsb (key_eqb k) seen :: seen_before (k :: seen) t
  end.

(** [df.duplicated(["hostname", "address"], keep=...)]: the boolean mask, in
    frame order.  With [keep=False] every row whose key occurs more than once
    is marked. *)
Definition duplicated (T : Type) (df : DataFrame T) (keep : Keep) : list bool :=
  let ks := col (@key_of T) df in
  match keep with
  | KeepFalse => map (fun k => 2 <=? count_key k ks) ks
  | KeepFirst => seen_before [] ks
  end.

(** [df[mask]]: the rows whose mask entry is true, labels kept. *)
Definition boolean_index (T : Type) (df : DataFrame T) (mask : list bool)
  : DataFrame T :=
  map fst (filter snd (combine df mask)).

(** [df.drop_duplicates(subset=["hostname", "address"], keep="first")] *)
Definition drop_duplicates (T : Type) (df : DataFrame T) : DataFrame T :=
  boolean_index df (map negb (duplicated df KeepFirst)).

(** [labels.isin(values)] *)
Definition isin (labels values : list Label) : list bool :=
  map (fun l => existsb (Nat.eqb l) values) labels.

(** ** [sort_values]

    With several sort keys pandas turns every key into integer codes and
    calls a stable lexicographic sort: a key sorted with [ascending=False] has
    its codes reversed, and under the default [na_position="last"] a missing
    value gets the largest code whichever the direction.  The comparison
    functions below are that order; strings compare as Python compares [str]
    (lexicographically by character). *)

Definition lex (c1 c2 : comparison) : comparison :=
  match c1 with Eq => c2 | _ => c1 end.

(** [ascending=True], [NaT] last. *)
Definition compare_asc (a b : Timestamp) : comparison :=
  match a, b with
  | Some x, Some y => Z.compare x y
  | Some _, None => Lt
  | None, Some _ => Gt
  | None, None => Eq
  end.

(** [ascending=False], [NaT] last. *)
Definition compare_desc (a b : Timestamp) : comparison :=
  match a, b with
  | Some x, Some y => Z.compare y x
  | Some _, None => Lt
  | None, Some _ => Gt
  | None, None => Eq
  end.

(** [by=["hostname", "address", "modified", "created"]],
    [ascending=[True, True, False, True]]. *)
Definition row_compare (x y : Row Timestamp) : comparison :=
  lex (String_as_OT.compare (hostname x) (hostname y))
   (lex (String_as_OT.compare (address x) (address y))
     (lex (compare_desc (modified x) (modified y))
          (compare_asc (created x) (created y)))).

Definition leb_of (A : Type) (cmp : A -> A -> comparison) (x y : A) : bool :=
  match cmp x y with Gt => false | _ => true end.

Definition row_leb (x y : Label * Row Timestamp) : bool :=
  leb_of row_compare (snd x) (snd y).

Section StableSort.
Variable A : Type.
Variable leb : A -> A -> bool.

(** [x] comes from the left of everything in [l]: it goes in front of the
    first element it is not greater than. *)
Fixpoint insert_sorted (x : A) (l : list A) : list A :=
  match l with
  | [] => [x]
  | y :: t => if leb x y then x :: y :: t else y :: insert_sorted x t
  end.

Definition stable_sort (l : list A) : list A :=
  fold_right insert_sorted [] l.

End StableSort.

Definition sort_values (df : DataFrame Timestamp) : DataFrame Timestamp :=
  stable_sort row_leb df.

(** [a] stands before [b] in [l]. *)
Definition precedes (A : Type) (l : list A) (a b : A) : Prop :=
  exists l1 l2, l = l1 ++ a :: l2 /\ In b l2.

(* ================================================================== *)
(** * The world: log, network, exceptions *)

(** Exceptions the [requests] / [ElementTree] calls raise.  A network error
    or the [HTTPError] of [raise_for_status] is a [RequestException]; a
    malformed body makes [ET.fromstring] raise a [ParseError], which is an
    [Exception] but no [RequestException]. *)
Inductive Exn : Type :=
| RequestException (msg : string)
| ParseError (msg : string).

Definition is_RequestException (e : Exn) : bool :=
  match e with RequestException _ => true | ParseError _ => false end.

Definition is_Exception (e : Exn) : bool := true.

(** The two requests the program posts. *)
Inductive Call : Type :=
| SearchCall (tracking_method : string) (limitResults startFromOffset : Z)
| UninstallCall (agent_id : string).

Inductive Event : Type :=
| EvSleep
| EvPost (c : Call).

(** A [HostAsset] element: the text of each child, [None] when the child is
    absent. *)
Record Entry : Type := mkEntry {
  e_name : option string;
  e_id : option string;
  e_address : option string;
  e_modified : option string;
  e_created : option string
}.

(** What the program reads of a parsed response document. *)
Record Document : Type := mkDocument {
  host_assets : list Entry;            (* root.findall("data/HostAsset") *)
  hasMoreRecords : option string;      (* root.findtext("hasMoreRecords") *)
  responseCode : option string;        (* root.findtext("responseCode") *)
  count : option string                (* root.findtext("count") *)
}.

(** What [requests.post], [raise_for_status] and [ET.fromstring] together
    give for one request. *)
Inductive Outcome : Type :=
| Raises (e : Exn)
| Responds (root : Document).

(** The remote platform: its answer to a request, given the events so far. *)
Definition Remote : Type := list Event -> Call -> Outcome.

(** The lines [log_debug] writes (without the clock prefix). *)
Inductive LogMsg : Type :=
| MsgFetching
| MsgFetchError (e : Exn)
| MsgIdentifying
| MsgFound (n : nat)
| MsgMarked (n : nat)
| MsgStartRemoval
| MsgAgent (dry_run : bool) (agent_id name ip : string)
| MsgUninstalled (agent_id name ip : string) (created_date modified_date : Timestamp)
| MsgFailed (agent_id name ip : string) (response_code cnt : option string)
| MsgUninstallError (agent_id : string) (e : Exn)
| MsgNoAgents
| MsgDryRunEnabled
| MsgNoDuplicates
| MsgUnexpected (e : Exn).

Record World : Type := mkWorld {
  log : list LogMsg;
  trace : list Event
}.

Inductive Result (A : Type) : Type :=
| Returned (a : A)
| Raised (e : Exn)
| OutOfFuel.

Arguments Raised {A} e.
Arguments OutOfFuel {A}.

Definition M (A : Type) : Type := World -> Result A * World.

Definition ret (A : Type) (a : A) : M A := fun w => (Returned a, w).

Definition bind (A B : Type) (m : M A) (k : A -> M B) : M B :=
  fun w =>
    match m w with
    | (Returned a, w') => k a w'
    | (Raised e, w') => (Raised e, w')
    | (OutOfFuel, w') => (OutOfFuel, w')
    end.

Notation "x <- c1 ;; c2" := (bind c1 (fun x => c2))
  (at level 61, c1 at next level, right associativity).
Notation "c1 ;; c2" := (bind c1 (fun _ => c2))
  (at level 61, right associativity).

(** [try: body except <catches> as e: handler e] *)
Definition try_except (A : Type) (body : M A) (catches : Exn -> bool)
  (handler : Exn -> M A) : M A :=
  fun w =>
    match body w with
    | (Raised e, w') => if catches e then handler e w' else (Raised e, w')
    | r => r
    end.

Definition log_debug (m : LogMsg) : M unit :=
  fun w => (Returned tt, mkWorld (log w ++ [m]) (trace w)).

Definition time_sleep : M unit :=
  fun w => (Returned tt, mkWorld (log w) (trace w ++ [EvSleep])).

(** [requests.post(...)], [response.raise_for_status()] and
    [ET.fromstring(response.text)]. *)
Definition requests_post (remote : Remote) (c : Call) : M Document :=
  fun w =>
    let w' := mkWorld (log w) (trace w ++ [EvPost c]) in
    match remote (trace w) c with
    | Raises e => (Raised e, w')
    | Responds root => (Returned root, w')
    end.

(** What a run returned or raised, apart from the world it left. *)
Definition value (A : Type) (r : Result A * World) : Result A := fst r.

(* ================================================================== *)
(** * [find_duplicate_agents] *)

Definition find_duplicate_agents (agents_data : DataFrame Timestamp)
  : M (DataFrame Timestamp) :=
  log_debug MsgIdentifying ;;
  let duplicates := boolean_index agents_data (duplicated agents_data KeepFalse) in
  let sorted_duplicates := sort_values duplicates in
  let latest_entries := drop_duplicates sorted_duplicates in
  let to_remove :=
    boolean_index sorted_duplicates
      (map negb (isin (index sorted_duplicates) (index latest_entries))) in
  log_debug (MsgFound (length duplicates)) ;;
  log_debug (MsgMarked (length to_remove)) ;;
  ret to_remove.

(* ================================================================== *)
(** * [fetch_cloud_agents], [remove_cloud_agents] and [main] *)

Definition opt_eqb (a : option string) (b : string) : bool :=
  match a with Some s => String.eqb s b | None => false end.

(** [entry.findtext(tag, default="")] *)
Definition findtext_default (o : option string) (default : string) : string :=
  match o with Some s => s | None => default end.

(** A frame of the given rows under a fresh index 0, 1, 2, ... *)
Definition reindex (T : Type) (rows : list (Row T)) : DataFrame T :=
  combine (seq 0 (length rows)) rows.

(** [pd.concat([df, new], ignore_index=True)] *)
Definition pd_concat_ignore_index (T : Type) (df new : DataFrame T)
  : DataFrame T :=
  reindex (map snd df ++ map snd new).

Inductive LoopCtl (S : Type) : Type :=
| Continue (s : S)
| Break (s : S).

(** [response_code == "SUCCESS" and count != "0"] *)
Definition uninstall_succeeded (root : Document) : bool :=
  (opt_eqb (responseCode root) "SUCCESS" && negb (opt_eqb (count root) "0"))%bool.

Section Program.

(** The platform, [str.lower], and
    [pd.to_datetime(column, errors="coerce", utc=True).dt.tz_localize(None)]
    as a function of the whole column and the position in it. *)
Variable remote : Remote.
Variable str_lower : string -> string.
Variable to_datetime : list string -> nat -> Timestamp.

Definition tracking_method : string := "QAGENT".

Definition row_of_entry (entry : Entry) : Row string :=
  let hostname := str_lower (findtext_default (e_name entry) "") in
  let agent_id := findtext_default (e_id entry) "" in
  let address := findtext_default (e_address entry) "" in
  let modified := findtext_default (e_modified entry) "" in
  let created := findtext_default (e_created entry) "" in
  mkRow agent_id hostname address created modified.

(** The [for entry in entries] loop. *)
Definition append_entries (agents_data : DataFrame string) (entries : list Entry)
  : DataFrame string :=
  fold_left
    (fun df entry => pd_concat_ignore_index df [(0, row_of_entry entry)])
    entries agents_data.

(** One turn of [while True]. *)
Definition fetch_page (offset : Z) (agents_data : DataFrame string)
  : M (LoopCtl (Z * DataFrame string)) :=
  try_except
    (root <- requests_post remote (SearchCall tracking_method 1000 offset) ;;
     let entries := host_assets root in
     let agents_data := append_entries agents_data entries in
     if opt_eqb (hasMoreRecords root) "true"
     then ret (Continue (offset + 1000, agents_data)%Z)
     else ret (Break (offset, agents_data)))
    is_RequestException
    (fun e =>
       log_debug (MsgFetchError e) ;;
       ret (Break (offset, agents_data))).

Fixpoint fetch_loop (fuel : nat) (offset : Z) (agents_data : DataFrame string)
  : M (DataFrame string) :=
  match fuel with
  | O => fun w => (OutOfFuel, w)
  | S fuel' =>
      ctl <- fetch_page offset agents_data ;;
      match ctl with
      | Continue (offset', agents_data') => fetch_loop fuel' offset' agents_data'
      | Break (_, agents_data') => ret agents_data'
      end
  end.

(** The two column assignments after the loop. *)
Definition convert_timestamps (df : DataFrame string) : DataFrame Timestamp :=
  let created_col := to_datetime (col (@created string) df) in
  let modified_col := to_datetime (col (@modified string) df) in
  map (fun ix => let r := snd (snd ix) in
                 (fst (snd ix),
                  mkRow (id r) (hostname r) (address r)
                        (created_col (fst ix)) (modified_col (fst ix))))
      (combine (seq 0 (length df)) df).

Definition fetch_cloud_agents (fuel : nat) : M (DataFrame Timestamp) :=
  log_debug MsgFetching ;;
  agents_data <- fetch_loop fuel 1%Z [] ;;
  ret (convert_timestamps agents_data).

(** The body of [for _, agent in agents_to_remove.iterrows()]. *)
Definition remove_one (agent : Row Timestamp) (dry_run : bool) : M unit :=
  let agent_id := id agent in
  let hostname := hostname agent in
  let address := address agent in
  let created_date := created agent in
  let modified_date := modified agent in
  log_debug (MsgAgent dry_run agent_id hostname address) ;;
  if dry_run then ret tt
  else
    try_except
      (time_sleep ;;
       root <- requests_post remote (UninstallCall agent_id) ;;
       let response_code := responseCode root in
       let cnt := count root in
       if uninstall_succeeded root
       then log_debug (MsgUninstalled agent_id hostname address created_date modified_date)
       else log_debug (MsgFailed agent_id hostname address response_code cnt))
      is_Exception
      (fun e => log_debug (MsgUninstallError agent_id e)).

Fixpoint remove_each (agents : DataFrame Timestamp) (dry_run : bool) : M unit :=
  match agents with
  | [] => ret tt
  | (_, agent) :: rest => remove_one agent dry_run ;; remove_each rest dry_run
  end.

Definition remove_cloud_agents (agents_to_remove : DataFrame Timestamp)
  (dry_run : bool) : M unit :=
  log_debug MsgStartRemoval ;;
  remove_each agents_to_remove dry_run.

Definition main (fuel : nat) (dry_run : bool) : M unit :=
  try_except
    (agents_data <- fetch_cloud_agents fuel ;;
     if empty agents_data then log_debug MsgNoAgents
     else
       duplicates_to_remove <- find_duplicate_agents agents_data ;;
       if negb (empty duplicates_to_remove)
       then
         remove_cloud_agents duplicates_to_remove dry_run ;;
         if dry_run then log_debug MsgDryRunEnabled else ret tt
       else log_debug MsgNoDuplicates)
    is_Exception
    (fun e => log_debug (MsgUnexpected e)).

End Program.

(** ASCII lower-casing, a [str.lower] for host names. *)
Definition ascii_lower (c : ascii) : ascii :=
  let n := nat_of_ascii c in
  if ((65 <=? n) && (n <=? 90))%bool then ascii_of_nat (n + 32) else c.

Fixpoint lower (s : string) : string :=
  match s with
  | EmptyString => EmptyString
  | String c t => String (ascii_lower c) (lower t)
  end.

(* ================================================================== *)
(** * Notions used to state the properties *)

(** A three-way comparison that is a total preorder. *)
Record GoodCmp (A : Type) (c : A -> A -> comparison) : Prop := mkGoodCmp {
  cmp_antisym : forall a b, c a b = CompOpp (c b a);
  cmp_eq_l : forall a b d, c a b = Eq -> c a d = c b d;
  cmp_lt_trans : forall a b d, c a b = Lt -> c b d = Lt -> c a d = Lt
}.

(** The rows [drop_duplicates] keeps, written as a filter with the keys met
    so far. *)
Fixpoint first_occ (T : Type) (seen : list Key) (df : DataFrame T) : DataFrame T :=
  match df with
  | [] => []
  | x :: t =>
      if existsb (key_eqb (key_of (snd x))) seen
      then first_occ (key_of (snd x) :: seen) t
      else x :: first_occ (key_of (snd x) :: seen) t
  end.

(** The frame [find_duplicate_agents] returns, its three boolean masks
    written as filters. *)
Definition is_duplicated (inv : DataFrame Timestamp) (x : Label * Row Timestamp)
  : bool :=
  2 <=? count_key (key_of (snd x)) (col (@key_of Timestamp) inv).

Definition marked (inv : DataFrame Timestamp) : DataFrame Timestamp :=
  let s := sort_values (filter (is_duplicated inv) inv) in
  filter (fun x => negb (existsb (Nat.eqb (fst x)) (index (first_occ [] s)))) s.

(** [a] is no later than [b], a missing timestamp counting as earlier than
    every timestamp. *)
Definition no_later_NaT_earliest (a b : Timestamp) : Prop :=
  match a, b with
  | None, _ => True
  | Some _, None => False
  | Some x, Some y => (x <= y)%Z
  end.

(** [a] is no later than [b], a missing timestamp counting as later than
    every timestamp. *)
Definition no_later_NaT_latest (a b : Timestamp) : Prop :=
  match a, b with
  | _, None => True
  | None, Some _ => False
  | Some x, Some y => (x <= y)%Z
  end.

Definition strict_subset (A : Type) (xs ys : list A) : Prop :=
  incl xs ys /\ exists y, In y ys /\ ~ In y xs.

(** "A missing timestamp sorts as the earliest possible value", for the
    ascending [created] key: among rows of one group with the same
    [modified], a row without [created] stands before every row with one. *)
Definition NaT_created_sorts_earliest (df : DataFrame Timestamp) : Prop :=
  forall a b,
    In a df -> In b df ->
    key_of (snd a) = key_of (snd b) ->
    modified (snd a) = modified (snd b) ->
    created (snd a) = NaT -> created (snd b) <> NaT ->
    precedes (sort_values df) a b.

(** The search requests of [n] consecutive pages from [offset]. *)
Definition searches (offset : Z) (n : nat) : list Event :=
  map (fun i => EvPost (SearchCall "QAGENT" 1000 (offset + 1000 * Z.of_nat i)))
      (seq 0 n).

(** The platform answers the consecutive page requests from [offset], made
    after the events [tr], with the documents [docs]. *)
Fixpoint served (remote : Remote) (tr : list Event) (offset : Z)
  (docs : list Document) : Prop :=
  match docs with
  | [] => True
  | d :: ds =>
      remote tr (SearchCall "QAGENT" 1000 offset) = Responds d /\
      served remote (tr ++ [EvPost (SearchCall "QAGENT" 1000 offset)])
             (offset + 1000) ds
  end.

(** The agent ids of the uninstall requests in a trace, in order. *)
Fixpoint uninstall_calls (tr : list Event) : list string :=
  match tr with
  | [] => []
  | EvPost (UninstallCall i) :: t => i :: uninstall_calls t
  | _ :: t => uninstall_calls t
  end.

(* ================================================================== *)
(** * Concrete inventories and platforms *)

Definition w0 : World := mkWorld [] [].

Definition host_a_key : Key := ("host-a"%string, "10.0.0.1"%string).

(** Two records of one host, the second modified later. *)
Definition scenario_inventory : DataFrame Timestamp :=
  [(0, mkRow "1" "host-a" "10.0.0.1" (Some 100%Z) (Some 200%Z));
   (1, mkRow "2" "host-a" "10.0.0.1" (Some 100%Z) (Some 300%Z))].

(** Two records with different host names. *)
Definition distinct_inventory : DataFrame Timestamp :=
  [(0, mkRow "1" "host-a" "10.0.0.1" (Some 100%Z) (Some 200%Z));
   (1, mkRow "2" "host-b" "10.0.0.1" (Some 100%Z) (Some 300%Z))].

(** Two records of one host modified at the same time; the [created] of the
    first did not parse. *)
Definition unparsed_created_row : Label * Row Timestamp :=
  (0, mkRow "1" "host-a" "10.0.0.1" NaT (Some 200%Z)).

Definition parsed_created_row : Label * Row Timestamp :=
  (1, mkRow "2" "host-a" "10.0.0.1" (Some 100%Z) (Some 200%Z)).

Definition unparsed_created_inventory : DataFrame Timestamp :=
  [unparsed_created_row; parsed_created_row].

(** A first page with one entry and more to come, and a last page. *)
Definition page1 : Document :=
  mkDocument
    [mkEntry (Some "Host-A"%string) (Some "1"%string) (Some "10.0.0.1"%string)
             (Some "2024-01-02T00:00:00Z"%string) (Some "2024-01-01T00:00:00Z"%string)]
    (Some "true"%string) None None.

Definition page2 : Document :=
  mkDocument [mkEntry (Some "HOST-B"%string) (Some "2"%string) None None None]
             (Some "false"%string) None None.

Definition uninstall_reply (agent_id : string) : Outcome :=
  if String.eqb agent_id "1"
  then Responds (mkDocument [] None (Some "SUCCESS"%string) (Some "0"%string))
  else if String.eqb agent_id "2"
  then Raises (RequestException "timed out")
  else Responds (mkDocument [] None (Some "SUCCESS"%string) (Some "1"%string)).

(** A platform with two pages of agents. *)
Definition two_page_remote : Remote :=
  fun _ c =>
    match c with
    | SearchCall _ _ offset =>
        if (offset =? 1)%Z then Responds page1
        else if (offset =? 1001)%Z then Responds page2
        else Raises (RequestException "400 Client Error")
    | UninstallCall agent_id => uninstall_reply agent_id
    end.

(** A platform that fails on the second page. *)
Definition failing_remote : Remote :=
  fun _ c =>
    match c with
    | SearchCall _ _ offset =>
        if (offset =? 1)%Z then Responds page1
        else Raises (RequestException "503 Server Error")
    | UninstallCall agent_id => uninstall_reply agent_id
    end.

(** A platform whose second page is empty and the last. *)
Definition empty_last_page : Document := mkDocument [] None None None.

Definition short_remote : Remote :=
  fun _ c =>
    match c with
    | SearchCall _ _ offset =>
        if (offset =? 1)%Z then Responds page1 else Responds empty_last_page
    | UninstallCall agent_id => uninstall_reply agent_id
    end.

(** A platform whose second page is not well-formed XML. *)
Definition malformed_remote : Remote :=
  fun _ c =>
    match c with
    | SearchCall _ _ offset =>
        if (offset =? 1)%Z then Responds page1
        else Raises (ParseError "not well-formed (invalid token)")
    | UninstallCall agent_id => uninstall_reply agent_id
    end.

(** A platform that answers every page request with [page1], which says
    there is more. *)
Definition endless_remote : Remote :=
  fun _ c =>
    match c with
    | SearchCall _ _ _ => Responds page1
    | UninstallCall agent_id => uninstall_reply agent_id
    end.

(** A platform with one page that lists the same host twice. *)
Definition duplicate_page : Document :=
  mkDocument
    [mkEntry (Some "Host-A"%string) (Some "1"%string) (Some "10.0.0.1"%string) None None;
     mkEntry (Some "host-a"%string) (Some "2"%string) (Some "10.0.0.1"%string) None None]
    None None None.

Definition duplicate_remote : Remote :=
  fun _ c =>
    match c with
    | SearchCall _ _ _ => Responds duplicate_page
    | UninstallCall agent_id => uninstall_reply agent_id
    end.

(** A platform that cannot be reached. *)
Definition unreachable_remote : Remote :=
  fun _ _ => Raises (RequestException "connection refused").

(** Two records of one host; the [modified] of the first did not parse. *)
Definition unparsed_modified_inventory : DataFrame Timestamp :=
  [(0, mkRow "1" "host-a" "10.0.0.1" (Some 100%Z) NaT);
   (1, mkRow "2" "host-a" "10.0.0.1" (Some 100%Z) (Some 200%Z))].

(** A record of a host of its own. *)
Definition host_b_row : Label * Row Timestamp :=
  (2, mkRow "3" "host-b" "10.0.0.2" (Some 100%Z) (Some 300%Z)).

(** A parser to which every text is unparseable. *)
Definition no_datetime : list string -> nat -> Timestamp := fun _ _ => NaT.

(* ================================================================== *)
(** * Comparisons *)

Lemma GoodCmp_eq_r (A : Type) (c : A -> A -> comparison) :
  GoodCmp c -> forall a b d, c a b = Eq -> c d a = c d b.
Proof.
  intros G a b d H.
  rewrite (cmp_antisym G d a), (cmp_antisym G d b).
  f_equal. apply (cmp_eq_l G). exact H.
Qed.

Lemma GoodCmp_refl (A : Type) (c : A -> A -> comparison) :
  GoodCmp c -> forall a, c a a = Eq.
Proof.
  intros G a. pose proof (cmp_antisym G a a) as H.
  destruct (c a a); simpl in H; congruence.
Qed.

Lemma GoodCmp_Z : GoodCmp Z.compare.
Proof.
  split.
  - intros a b. apply Z.compare_antisym.
  - intros a b d H. apply Z.compare_eq in H. now subst.
  - intros a b d H1 H2. rewrite Z.compare_lt_iff in *. lia.
Qed.

Lemma GoodCmp_flip (A : Type) (c : A -> A -> comparison) :
  GoodCmp c -> GoodCmp (fun a b => c b a).
Proof.
  intros G. split.
  - intros a b. apply (cmp_antisym G).
  - intros a b d H. apply (GoodCmp_eq_r G).
    rewrite (cmp_antisym G), H. reflexivity.
  - intros a b d H1 H2. apply (cmp_lt_trans G) with b; assumption.
Qed.

Lemma GoodCmp_on (A B : Type) (f : A -> B) (c : B -> B -> comparison) :
  GoodCmp c -> GoodCmp (fun a b => c (f a) (f b)).
Proof.
  intros G. split.
  - intros a b. apply (cmp_antisym G).
  - intros a b d. apply (cmp_eq_l G).
  - intros a b d. apply (cmp_lt_trans G).
Qed.

Lemma GoodCmp_lex (A : Type) (c1 c2 : A -> A -> comparison) :
  GoodCmp c1 -> GoodCmp c2 -> GoodCmp (fun a b => lex (c1 a b) (c2 a b)).
Proof.
  intros G1 G2. split.
  - intros a b. rewrite (cmp_antisym G1 a b), (cmp_antisym G2 a b).
    destruct (c1 b a); reflexivity.
  - intros a b d H. unfold lex in *.
    destruct (c1 a b) eqn:E1; try discriminate.
    rewrite (cmp_eq_l G1 _ _ d E1), (cmp_eq_l G2 _ _ d H). reflexivity.
  - intros a b d H1 H2. unfold lex in *.
    destruct (c1 a b) eqn:E1; try discriminate.
    + rewrite (cmp_eq_l G1 _ _ d E1).
      destruct (c1 b d) eqn:E2; try discriminate; trivial.
      apply (cmp_lt_trans G2) with b; assumption.
    + destruct (c1 b d) eqn:E2; try discriminate.
      * rewrite <- (GoodCmp_eq_r G1 _ _ a E2), E1. reflexivity.
      * rewrite (cmp_lt_trans G1 _ _ _ E1 E2). reflexivity.
Qed.

Lemma GoodCmp_string : GoodCmp String_as_OT.compare.
Proof.
  assert (Hirr : forall s, ~ String_as_OT.lt s s)
    by (intros s; apply String_as_OT.lt_strorder).
  assert (Htr : forall a b d, String_as_OT.lt a b -> String_as_OT.lt b d ->
                              String_as_OT.lt a d)
    by (intros a b d; apply String_as_OT.lt_strorder).
  split.
  - intros a b.
    destruct (String_as_OT.compare_spec a b) as [E|L|L],
             (String_as_OT.compare_spec b a) as [E'|L'|L'];
      simpl; try reflexivity; exfalso;
      unfold String_as_OT.eq in *; subst;
      solve [ eapply Hirr; eassumption
            | eapply Hirr; eapply Htr; eassumption ].
  - intros a b d H.
    destruct (String_as_OT.compare_spec a b) as [E|L|L]; try discriminate.
    unfold String_as_OT.eq in E. now subst.
  - intros a b d H1 H2. eapply Htr; eassumption.
Qed.

Lemma GoodCmp_asc : GoodCmp compare_asc.
Proof.
  split.
  - intros [a|] [b|]; simpl; trivial. apply Z.compare_antisym.
  - intros [a|] [b|] [d|]; simpl; try discriminate; trivial.
    apply (cmp_eq_l GoodCmp_Z).
  - intros [a|] [b|] [d|]; simpl; try discriminate; trivial.
    apply (cmp_lt_trans GoodCmp_Z).
Qed.

Lemma GoodCmp_desc : GoodCmp compare_desc.
Proof.
  pose proof (GoodCmp_flip GoodCmp_Z) as G.
  split.
  - intros [a|] [b|]; simpl; trivial. apply (cmp_antisym G).
  - intros [a|] [b|] [d|]; simpl; try discriminate; trivial.
    apply (cmp_eq_l G).
  - intros [a|] [b|] [d|]; simpl; try discriminate; trivial.
    apply (cmp_lt_trans G).
Qed.

Lemma GoodCmp_row : GoodCmp row_compare.
Proof.
  unfold row_compare.
  apply (@GoodCmp_lex _ (fun x y => String_as_OT.compare (hostname x) (hostname y))).
  { apply (GoodCmp_on (@hostname Timestamp) GoodCmp_string). }
  apply (@GoodCmp_lex _ (fun x y => String_as_OT.compare (address x) (address y))).
  { apply (GoodCmp_on (@address Timestamp) GoodCmp_string). }
  apply (@GoodCmp_lex _ (fun x y => compare_desc (modified x) (modified y))).
  { apply (GoodCmp_on (@modified Timestamp) GoodCmp_desc). }
  apply (GoodCmp_on (@created Timestamp) GoodCmp_asc).
Qed.

Lemma leb_of_total (A : Type) (c : A -> A -> comparison) :
  GoodCmp c -> forall a b, leb_of c a b = false -> leb_of c b a = true.
Proof.
  intros G a b. unfold leb_of. rewrite (cmp_antisym G b a).
  destruct (c a b); simpl; congruence.
Qed.

Lemma leb_of_trans (A : Type) (c : A -> A -> comparison) :
  GoodCmp c -> forall a b d,
    leb_of c a b = true -> leb_of c b d = true -> leb_of c a d = true.
Proof.
  intros G a b d. unfold leb_of.
  destruct (c a b) eqn:E1; try discriminate; intros _.
  - rewrite (cmp_eq_l G _ _ d E1). trivial.
  - destruct (c b d) eqn:E2; try discriminate; intros _.
    + rewrite <- (GoodCmp_eq_r G _ _ a E2), E1. reflexivity.
    + rewrite (cmp_lt_trans G _ _ _ E1 E2). reflexivity.
Qed.

Lemma row_leb_total (x y : Label * Row Timestamp) :
  row_leb x y = false -> row_leb y x = true.
Proof. apply (leb_of_total GoodCmp_row). Qed.

Lemma row_leb_trans (x y z : Label * Row Timestamp) :
  row_leb x y = true -> row_leb y z = true -> row_leb x z = true.
Proof. apply (leb_of_trans GoodCmp_row). Qed.

(* ================================================================== *)
(** * Order of appearance in a list *)

Lemma precedes_cons (A : Type) (x : A) (l : list A) (a b : A) :
  precedes (x :: l) a b <-> (x = a /\ In b l) \/ precedes l a b.
Proof.
  unfold precedes. split.
  - intros (l1 & l2 & E & Hb). destruct l1 as [|z l1]; simpl in E.
    + injection E as E1 E2. subst. left. auto.
    + injection E as E1 E2. subst. right. eauto.
  - intros [[E Hb] | (l1 & l2 & E & Hb)]; subst.
    + exists [], l. auto.
    + exists (x :: l1), l2. auto.
Qed.

Lemma precedes_nil (A : Type) (a b : A) : ~ precedes [] a b.
Proof. intros (l1 & l2 & E & _). destruct l1; discriminate. Qed.

Lemma precedes_In (A : Type) (l : list A) (a b : A) :
  precedes l a b -> In a l /\ In b l.
Proof.
  intros (l1 & l2 & E & Hb). subst. split; apply in_or_app; right; simpl; auto.
Qed.

Lemma precedes_total (A : Type) (l : list A) (a b : A) :
  In a l -> In b l -> a <> b -> precedes l a b \/ precedes l b a.
Proof.
  induction l as [|x l IH]; simpl; [tauto|].
  intros [Ea|Ha] [Eb|Hb] Hne; subst.
  - congruence.
  - left. apply precedes_cons. auto.
  - right. apply precedes_cons. auto.
  - destruct (IH Ha Hb Hne); [left|right]; apply precedes_cons; auto.
Qed.

Lemma precedes_asym (A : Type) (l : list A) (a b : A) :
  NoDup l -> precedes l a b -> precedes l b a -> False.
Proof.
  induction 1 as [|x l Hx Hnd IH]; intros H1 H2.
  - exact (precedes_nil H1).
  - apply precedes_cons in H1. apply precedes_cons in H2.
    destruct H1 as [[E1 I1]|P1], H2 as [[E2 I2]|P2]; subst.
    + auto.
    + apply Hx. apply (precedes_In P2).
    + apply Hx. apply (precedes_In P1).
    + auto.
Qed.

Lemma precedes_filter (A : Type) (p : A -> bool) (l : list A) (a b : A) :
  precedes l a b -> p a = true -> p b = true -> precedes (filter p l) a b.
Proof.
  intros H Pa Pb. induction l as [|x l IH].
  - destruct (precedes_nil H).
  - apply precedes_cons in H. simpl.
    destruct H as [[E Hb]|H].
    + subst. rewrite Pa. apply precedes_cons. left. split; trivial.
      apply filter_In. auto.
    + destruct (p x); [apply precedes_cons; right|]; auto.
Qed.

Lemma precedes_split (A : Type) (l1 l2 : list A) (x y : A) :
  In y (l1 ++ x :: l2) -> ~ In y l1 -> y <> x -> precedes (l1 ++ x :: l2) x y.
Proof.
  intros H N1 Nx. exists l1, l2. split; trivial.
  apply in_app_or in H. destruct H as [H|[H|H]]; congruence || tauto.
Qed.

(** The first element with a property splits the list. *)
Lemma first_split (A : Type) (p : A -> bool) (l : list A) :
  (exists y, In y l /\ p y = true) ->
  exists l1 x l2, l = l1 ++ x :: l2 /\ p x = true /\
                  forall z, In z l1 -> p z = false.
Proof.
  induction l as [|a l IH]; intros (y & Hy & Py).
  - destruct Hy.
  - destruct (p a) eqn:Pa.
    + exists [], a, l. simpl. tauto.
    + destruct IH as (l1 & x & l2 & E & Px & Hl1).
      { destruct Hy as [E|Hy]; [congruence|eauto]. }
      exists (a :: l1), x, l2. subst. simpl. split; [trivial|]. split; [trivial|].
      intros z [E|Hz]; subst; auto.
Qed.

(** Rows told apart by a column with distinct values. *)
Lemma distinct_image_inj (A B : Type) (f : A -> B) (l : list A) (x y : A) :
  NoDup (map f l) -> In x l -> In y l -> f x = f y -> x = y.
Proof.
  induction l as [|a l IH]; simpl; [tauto|].
  intros Hnd Hx Hy E. apply NoDup_cons_iff in Hnd. destruct Hnd as [Ha Hnd].
  destruct Hx as [Hx|Hx], Hy as [Hy|Hy]; subst; auto.
  - exfalso. apply Ha. rewrite E. apply in_map. exact Hy.
  - exfalso. apply Ha. rewrite <- E. apply in_map. exact Hx.
Qed.

Lemma NoDup_of_map (A B : Type) (f : A -> B) (l : list A) :
  NoDup (map f l) -> NoDup l.
Proof.
  induction l as [|a l IH]; simpl; intros H; [constructor|].
  inversion H; subst. constructor; auto using in_map.
Qed.

(* ================================================================== *)
(** * The stable insertion sort *)

Section StableSortFacts.
Variable A : Type.
Variable leb : A -> A -> bool.

Lemma insert_sorted_perm (x : A) (l : list A) :
  Permutation (insert_sorted leb x l) (x :: l).
Proof.
  induction l as [|y l IH]; simpl; [reflexivity|].
  destruct (leb x y); [reflexivity|].
  rewrite IH. apply perm_swap.
Qed.

Lemma stable_sort_perm (l : list A) : Permutation (stable_sort leb l) l.
Proof.
  induction l as [|x l IH]; simpl; [reflexivity|].
  rewrite insert_sorted_perm. now apply perm_skip.
Qed.

Lemma In_stable_sort (l : list A) (y : A) :
  In y (stable_sort leb l) <-> In y l.
Proof.
  split; apply Permutation_in;
    [apply stable_sort_perm | apply Permutation_sym, stable_sort_perm].
Qed.

Lemma precedes_insert_sorted (x : A) (l : list A) (a b : A) :
  precedes l a b -> precedes (insert_sorted leb x l) a b.
Proof.
  induction l as [|y l IH]; simpl; intros H.
  - destruct (precedes_nil H).
  - destruct (leb x y).
    + apply precedes_cons. auto.
    + apply precedes_cons in H. apply precedes_cons.
      destruct H as [[E Hb]|H]; [left|right; auto].
      split; trivial.
      apply (Permutation_in _ (Permutation_sym (insert_sorted_perm x l))).
      simpl; auto.
Qed.

Lemma insert_sorted_front (x : A) (l : list A) (b : A) :
  In b l -> leb x b = true -> precedes (insert_sorted leb x l) x b.
Proof.
  induction l as [|y l IH]; simpl; intros Hb Hle; [tauto|].
  destruct (leb x y) eqn:E.
  - apply precedes_cons. left. auto.
  - destruct Hb as [Hb|Hb]; [congruence|].
    apply precedes_cons. right. auto.
Qed.

(** Stability: the sort never moves a row behind a later row that is not
    smaller. *)
Lemma stable_sort_stable (l : list A) (a b : A) :
  precedes l a b -> leb a b = true -> precedes (stable_sort leb l) a b.
Proof.
  induction l as [|x l IH]; intros H Hle.
  - destruct (precedes_nil H).
  - apply precedes_cons in H. simpl. destruct H as [[E Hb]|H].
    + subst. apply insert_sorted_front; trivial.
      apply In_stable_sort. exact Hb.
    + apply precedes_insert_sorted. auto.
Qed.

Hypothesis leb_total : forall a b, leb a b = false -> leb b a = true.
Hypothesis leb_trans :
  forall a b c, leb a b = true -> leb b c = true -> leb a c = true.

Lemma insert_sorted_ordered (x : A) (l : list A) :
  (forall a b, precedes l a b -> leb a b = true) ->
  forall a b, precedes (insert_sorted leb x l) a b -> leb a b = true.
Proof.
  induction l as [|y l IH]; simpl; intros Hl a b H.
  - apply precedes_cons in H. destruct H as [[_ []]|H].
    destruct (precedes_nil H).
  - assert (Hl' : forall a b, precedes l a b -> leb a b = true).
    { intros a' b' P. apply Hl. apply precedes_cons. auto. }
    destruct (leb x y) eqn:E.
    + apply precedes_cons in H. destruct H as [[Ex Hb]|H]; [subst a|auto].
      destruct Hb as [Hb|Hb]; [congruence|].
      apply leb_trans with y; trivial.
      apply Hl. apply precedes_cons. auto.
    + apply precedes_cons in H. destruct H as [[Ey Hb]|H]; [subst a|].
      * apply (Permutation_in _ (insert_sorted_perm x l)) in Hb.
        destruct Hb as [Hb|Hb]; [subst; auto|].
        apply Hl. apply precedes_cons. auto.
      * apply IH; assumption.
Qed.

Lemma stable_sort_ordered (l : list A) (a b : A) :
  precedes (stable_sort leb l) a b -> leb a b = true.
Proof.
  revert a b. induction l as [|x l IH]; simpl; intros a b H.
  - destruct (precedes_nil H).
  - revert H. apply insert_sorted_ordered. exact IH.
Qed.

End StableSortFacts.

(* ================================================================== *)
(** * Keys, masks and the frame the selector returns *)

Lemma key_eqb_eq (a b : Key) : key_eqb a b = true <-> a = b.
Proof.
  destruct a as [a1 a2], b as [b1 b2]. unfold key_eqb. simpl.
  rewrite andb_true_iff, !String.eqb_eq. split.
  - intros [-> ->]. reflexivity.
  - intros E. injection E as -> ->. auto.
Qed.

Lemma key_eqb_refl (a : Key) : key_eqb a a = true.
Proof. apply key_eqb_eq. reflexivity. Qed.

Lemma key_eqb_neq (a b : Key) : key_eqb a b = false <-> a <> b.
Proof.
  rewrite <- key_eqb_eq. destruct (key_eqb a b); split; congruence.
Qed.

Lemma existsb_eqb_In (l : Label) (vals : list Label) :
  existsb (Nat.eqb l) vals = true <-> In l vals.
Proof.
  rewrite existsb_exists. split.
  - intros (x & Hx & E). apply Nat.eqb_eq in E. now subst.
  - intros H. exists l. split; trivial. apply Nat.eqb_refl.
Qed.

Lemma count_key_not_In (k : Key) (ks : list Key) :
  ~ In k ks -> count_key k ks = 0.
Proof.
  induction ks as [|k' ks IH]; simpl; intros H; trivial.
  destruct (key_eqb k k') eqn:E.
  - apply key_eqb_eq in E. subst. tauto.
  - rewrite IH; tauto.
Qed.

Lemma count_key_NoDup (k : Key) (ks : list Key) :
  NoDup ks -> count_key k ks <= 1.
Proof.
  induction 1 as [|k' ks Hk Hnd IH]; simpl; [lia|].
  destruct (key_eqb k k') eqn:E; [|lia].
  apply key_eqb_eq in E. subst. rewrite count_key_not_In; trivial.
Qed.

Lemma count_key_pos (T : Type) (k : Key) (df : DataFrame T) :
  1 <= count_key k (col (@key_of T) df) ->
  exists y, In y df /\ key_of (snd y) = k.
Proof.
  induction df as [|x df IH]; simpl; intros H; [lia|].
  destruct (key_eqb k (key_of (snd x))) eqn:E.
  - apply key_eqb_eq in E. eauto.
  - destruct IH as (y & Hy & Ky); [simpl in H; lia|eauto].
Qed.

Lemma boolean_index_map (T : Type) (p : Label * Row T -> bool) (df : DataFrame T) :
  boolean_index df (map p df) = filter p df.
Proof.
  unfold boolean_index. induction df as [|x df IH]; simpl; trivial.
  destruct (p x); simpl; rewrite IH; reflexivity.
Qed.

Lemma duplicated_all_filter (inv : DataFrame Timestamp) :
  boolean_index inv (duplicated inv KeepFalse) = filter (is_duplicated inv) inv.
Proof.
  unfold duplicated, col. rewrite map_map. apply boolean_index_map.
Qed.

Lemma drop_duplicates_seen (T : Type) (df : DataFrame T) (seen : list Key) :
  boolean_index df (map negb (seen_before seen (col (@key_of T) df)))
  = first_occ seen df.
Proof.
  unfold boolean_index. revert seen.
  induction df as [|x df IH]; intros seen; simpl; trivial.
  destruct (existsb (key_eqb (key_of (snd x))) seen); simpl; rewrite IH; reflexivity.
Qed.

Lemma drop_duplicates_first_occ (T : Type) (df : DataFrame T) :
  drop_duplicates df = first_occ [] df.
Proof. apply drop_duplicates_seen. Qed.

Lemma not_isin_filter (T : Type) (df : DataFrame T) (vals : list Label) :
  boolean_index df (map negb (isin (index df) vals))
  = filter (fun x => negb (existsb (Nat.eqb (fst x)) vals)) df.
Proof.
  unfold isin, index. rewrite !map_map. apply boolean_index_map.
Qed.

Lemma to_remove_marked (inv : DataFrame Timestamp) :
  (let duplicates := boolean_index inv (duplicated inv KeepFalse) in
   let sorted_duplicates := sort_values duplicates in
   let latest_entries := drop_duplicates sorted_duplicates in
   boolean_index sorted_duplicates
     (map negb (isin (index sorted_duplicates) (index latest_entries))))
  = marked inv.
Proof.
  cbv zeta. unfold marked.
  rewrite duplicated_all_filter, drop_duplicates_first_occ.
  apply not_isin_filter.
Qed.

(** The selector always returns, touches the log only, and what it returns
    is [marked]. *)
Lemma find_duplicate_agents_run (inv : DataFrame Timestamp) (w : World) :
  find_duplicate_agents inv w =
  (Returned (marked inv),
   mkWorld (log w ++ [MsgIdentifying;
                      MsgFound (length (filter (is_duplicated inv) inv));
                      MsgMarked (length (marked inv))])
           (trace w)).
Proof.
  unfold find_duplicate_agents, bind, log_debug, ret. cbv zeta. simpl.
  rewrite to_remove_marked, duplicated_all_filter.
  rewrite <- !app_assoc. reflexivity.
Qed.

Lemma first_occ_In (T : Type) (df : DataFrame T) (seen : list Key)
  (y : Label * Row T) :
  In y (first_occ seen df) ->
  In y df /\ existsb (key_eqb (key_of (snd y))) seen = false.
Proof.
  revert seen. induction df as [|x df IH]; intros seen; simpl; [tauto|].
  destruct (existsb (key_eqb (key_of (snd x))) seen) eqn:E; simpl.
  - intros H. destruct (IH _ H) as [H1 H2]. simpl in H2.
    apply orb_false_elim in H2. tauto.
  - intros [H|H].
    + subst. auto.
    + destruct (IH _ H) as [H1 H2]. simpl in H2.
      apply orb_false_elim in H2. tauto.
Qed.

Lemma first_occ_split (T : Type) (l1 l2 : DataFrame T) (x : Label * Row T)
  (seen : list Key) :
  existsb (key_eqb (key_of (snd x))) seen = false ->
  (forall z, In z l1 -> key_eqb (key_of (snd z)) (key_of (snd x)) = false) ->
  exists seen',
    existsb (key_eqb (key_of (snd x))) seen' = true /\
    first_occ seen (l1 ++ x :: l2) = first_occ seen l1 ++ x :: first_occ seen' l2.
Proof.
  revert seen. induction l1 as [|z l1 IH]; intros seen Hs Hl1; simpl.
  - rewrite Hs. exists (key_of (snd x) :: seen). simpl.
    rewrite key_eqb_refl. auto.
  - assert (Hz : key_eqb (key_of (snd z)) (key_of (snd x)) = false)
      by (apply Hl1; simpl; auto).
    assert (Hl1' : forall z', In z' l1 ->
                   key_eqb (key_of (snd z')) (key_of (snd x)) = false)
      by (intros z' Hz'; apply Hl1; simpl; auto).
    destruct (IH (key_of (snd z) :: seen)) as (seen' & H1 & H2); trivial.
    { simpl. rewrite Hs, orb_false_r.
      apply key_eqb_neq. apply key_eqb_neq in Hz. congruence. }
    exists seen'. split; trivial.
    destruct (existsb (key_eqb (key_of (snd z))) seen); rewrite H2; reflexivity.
Qed.

(** Of the rows of one key, [drop_duplicates] keeps the first one only. *)
Lemma first_occ_of_key (T : Type) (l1 l2 : DataFrame T) (x : Label * Row T) :
  (forall z, In z l1 -> key_eqb (key_of (snd z)) (key_of (snd x)) = false) ->
  In x (first_occ [] (l1 ++ x :: l2)) /\
  forall z, In z (first_occ [] (l1 ++ x :: l2)) ->
            key_of (snd z) = key_of (snd x) -> z = x.
Proof.
  intros Hl1.
  destruct (@first_occ_split T l1 l2 x []) as (seen' & H1 & H2); trivial.
  rewrite H2. split.
  - apply in_or_app. right. simpl. auto.
  - intros z Hz Kz. apply in_app_or in Hz. destruct Hz as [Hz|[Hz|Hz]]; auto.
    + apply first_occ_In in Hz. destruct Hz as [Hz _].
      apply Hl1 in Hz. apply key_eqb_neq in Hz. contradiction.
    + apply first_occ_In in Hz. destruct Hz as [_ Hz].
      rewrite Kz in Hz. congruence.
Qed.

(** Selecting rows of a frame keeps its labels distinct. *)
Lemma index_filter_NoDup (T : Type) (keep_row : Label * Row T -> bool)
  (df : DataFrame T) :
  NoDup (index df) -> NoDup (index (filter keep_row df)).
Proof.
  unfold index. induction df as [|x df IH]; simpl; intros Hnd; [constructor|].
  apply NoDup_cons_iff in Hnd. destruct Hnd as [Hx Hnd].
  destruct (keep_row x); simpl; [|auto].
  apply NoDup_cons; [|auto].
  rewrite in_map_iff. intros (z & E & Hz).
  apply filter_In in Hz. apply Hx. rewrite <- E. apply in_map. tauto.
Qed.

Lemma sorted_duplicates_NoDup (inv : DataFrame Timestamp) :
  NoDup (index inv) ->
  NoDup (index (sort_values (filter (is_duplicated inv) inv))).
Proof.
  intros H. unfold index, sort_values.
  eapply Permutation_NoDup.
  - apply Permutation_map. apply Permutation_sym. apply stable_sort_perm.
  - apply index_filter_NoDup. exact H.
Qed.

Lemma marked_In (inv : DataFrame Timestamp) (y : Label * Row Timestamp) :
  In y (marked inv) ->
  In y inv /\ 2 <= count_key (key_of (snd y)) (col (@key_of Timestamp) inv).
Proof.
  unfold marked. intros H. apply filter_In in H. destruct H as [H _].
  apply In_stable_sort in H. apply filter_In in H. destruct H as [H1 H2].
  split; trivial. unfold is_duplicated in H2. apply Nat.leb_le in H2. exact H2.
Qed.

(* ================================================================== *)
(** * The sort order inside a group *)

Lemma row_compare_same_key (a b : Row Timestamp) :
  key_of a = key_of b ->
  row_compare a b =
  lex (compare_desc (modified a) (modified b)) (compare_asc (created a) (created b)).
Proof.
  unfold key_of, row_compare. intros E. injection E as Eh Ea.
  rewrite Eh, Ea, !(GoodCmp_refl GoodCmp_string). reflexivity.
Qed.

Lemma compare_desc_not_Gt (a b : Timestamp) :
  compare_desc a b <> Gt <-> no_later_NaT_earliest b a.
Proof.
  destruct a as [x|], b as [y|]; simpl; try (split; [trivial|discriminate]).
  - apply Z.compare_le_iff.
  - split; [congruence|tauto].
Qed.

Lemma compare_asc_not_Gt (a b : Timestamp) :
  compare_asc a b <> Gt <-> no_later_NaT_latest a b.
Proof.
  destruct a as [x|], b as [y|]; simpl; try (split; [trivial|discriminate]).
  - apply Z.compare_le_iff.
  - split; [congruence|tauto].
Qed.

Lemma compare_desc_Eq (a b : Timestamp) : compare_desc a b = Eq <-> a = b.
Proof.
  destruct a as [x|], b as [y|]; simpl; try (split; discriminate).
  - rewrite Z.compare_eq_iff. split; congruence.
  - tauto.
Qed.

Lemma compare_asc_Eq (a b : Timestamp) : compare_asc a b = Eq <-> a = b.
Proof.
  destruct a as [x|], b as [y|]; simpl; try (split; discriminate).
  - rewrite Z.compare_eq_iff. split; congruence.
  - tauto.
Qed.

(** What [row_leb] says of two rows of one group. *)
Lemma row_leb_same_key (x y : Label * Row Timestamp) :
  key_of (snd x) = key_of (snd y) ->
  row_leb x y = true ->
  no_later_NaT_earliest (modified (snd y)) (modified (snd x)) /\
  (modified (snd y) = modified (snd x) ->
   no_later_NaT_latest (created (snd x)) (created (snd y))).
Proof.
  intros K H. unfold row_leb, leb_of in H.
  rewrite (@row_compare_same_key _ _ K) in H. unfold lex in H.
  destruct (compare_desc (modified (snd x)) (modified (snd y))) eqn:E.
  - split.
    + apply compare_desc_not_Gt. congruence.
    + intros _. apply compare_asc_not_Gt. intros G. rewrite G in H. discriminate.
  - split.
    + apply compare_desc_not_Gt. congruence.
    + intros Em. symmetry in Em. apply compare_desc_Eq in Em. congruence.
  - discriminate.
Qed.

Lemma row_leb_tie (x y : Label * Row Timestamp) :
  key_of (snd x) = key_of (snd y) ->
  modified (snd x) = modified (snd y) ->
  created (snd x) = created (snd y) ->
  row_leb x y = true.
Proof.
  intros K Em Ec. unfold row_leb, leb_of.
  rewrite (@row_compare_same_key _ _ K).
  apply compare_desc_Eq in Em. apply compare_asc_Eq in Ec.
  rewrite Em, Ec. reflexivity.
Qed.

Lemma sort_values_ordered (df : DataFrame Timestamp) (a b : Label * Row Timestamp) :
  precedes (sort_values df) a b -> row_leb a b = true.
Proof. apply (stable_sort_ordered row_leb row_leb_total row_leb_trans). Qed.

Lemma sort_values_stable (df : DataFrame Timestamp) (a b : Label * Row Timestamp) :
  precedes df a b -> row_leb a b = true -> precedes (sort_values df) a b.
Proof. apply stable_sort_stable. Qed.

(** Two rows of the frame that compare strictly stand in that order after
    the sort. *)
Lemma sort_values_strict (df : DataFrame Timestamp) (a b : Label * Row Timestamp) :
  In a df -> In b df -> row_compare (snd a) (snd b) = Lt ->
  precedes (sort_values df) a b.
Proof.
  intros Ha Hb L.
  assert (Hne : a <> b).
  { intros E. subst. rewrite (GoodCmp_refl GoodCmp_row) in L. discriminate. }
  destruct (@precedes_total _ (sort_values df) a b) as [P|P]; trivial;
    try (apply In_stable_sort; assumption).
  apply sort_values_ordered in P.
  unfold row_leb, leb_of in P.
  rewrite (cmp_antisym GoodCmp_row), L in P. discriminate.
Qed.

(* ================================================================== *)
(** * The retained row of a duplicate group *)

Lemma is_duplicated_key (inv : DataFrame Timestamp) (x y : Label * Row Timestamp) :
  key_of (snd x) = key_of (snd y) -> is_duplicated inv x = is_duplicated inv y.
Proof. unfold is_duplicated. intros ->. reflexivity. Qed.

Lemma marked_group (inv : DataFrame Timestamp) (k : Key) :
  NoDup (index inv) ->
  2 <= count_key k (col (@key_of Timestamp) inv) ->
  exists kept,
    In kept inv /\ key_of (snd kept) = k /\
    ~ In (fst kept) (index (marked inv)) /\
    forall y, In y inv -> key_of (snd y) = k -> y <> kept ->
      In y (marked inv) /\
      precedes (sort_values (filter (is_duplicated inv) inv)) kept y.
Proof.
  intros Hnd Hk.
  set (s := sort_values (filter (is_duplicated inv) inv)).
  assert (Hs : forall y, In y inv -> key_of (snd y) = k -> In y s).
  { intros y Hy Ky. apply In_stable_sort. apply filter_In. split; trivial.
    unfold is_duplicated. rewrite Ky. apply Nat.leb_le. exact Hk. }
  destruct (@count_key_pos _ k inv) as (y0 & Hy0 & Ky0); [lia|].
  destruct (@first_split _ (fun z => key_eqb (key_of (snd z)) k) s)
    as (l1 & x & l2 & Es & Kx & Hl1).
  { exists y0. split; auto. apply key_eqb_eq. exact Ky0. }
  apply key_eqb_eq in Kx.
  assert (Hl1' : forall z, In z l1 ->
                 key_eqb (key_of (snd z)) (key_of (snd x)) = false)
    by (rewrite Kx; exact Hl1).
  destruct (first_occ_of_key l1 l2 x Hl1') as [Hin Huniq].
  rewrite <- Es in Hin, Huniq.
  assert (Hxs : In x s) by (rewrite Es; apply in_or_app; simpl; auto).
  exists x. split; [|split; [exact Kx|split]].
  - apply In_stable_sort in Hxs. apply filter_In in Hxs. tauto.
  - unfold marked. fold s. unfold index at 1. rewrite in_map_iff.
    intros (z & Ez & Hz). apply filter_In in Hz. destruct Hz as [_ Hz].
    apply negb_true_iff in Hz.
    assert (H : existsb (Nat.eqb (fst z)) (index (first_occ [] s)) = true).
    { apply existsb_eqb_In. rewrite Ez. apply in_map. exact Hin. }
    exact (eq_true_false_abs _ H Hz).
  - intros y Hy Ky Hne. split.
    + unfold marked. fold s. apply filter_In. split; [auto|].
      apply negb_true_iff.
      destruct (existsb (Nat.eqb (fst y)) (index (first_occ [] s))) eqn:E; trivial.
      exfalso. apply existsb_eqb_In in E. unfold index in E.
      apply in_map_iff in E. destruct E as (z & Ez & Hz).
      assert (z = y).
      { apply (@distinct_image_inj _ _ fst s); auto.
        - apply sorted_duplicates_NoDup. exact Hnd.
        - apply first_occ_In in Hz. tauto. }
      subst z. apply Hne. apply Huniq; trivial. congruence.
    + rewrite Es. apply precedes_split; trivial.
      * rewrite <- Es. auto.
      * intros Hy1. apply Hl1 in Hy1. apply key_eqb_neq in Hy1. contradiction.
Qed.

Lemma filter_nil (A : Type) (p : A -> bool) (l : list A) :
  (forall x, In x l -> p x = false) -> filter p l = [].
Proof.
  induction l as [|a l IH]; simpl; intros H; trivial.
  rewrite (H a), IH; auto.
Qed.

Lemma marked_no_duplicates (inv : DataFrame Timestamp) :
  filter (is_duplicated inv) inv = [] -> marked inv = [].
Proof. unfold marked. intros ->. reflexivity. Qed.

(* ================================================================== *)
(** * The duplicate selector *)

Ltac nodup :=
  repeat (constructor; [simpl; intuition discriminate|]); constructor.

(** C1.  In an inventory with distinct index labels, every key [k] that
    occurs at least twice has exactly one row [kept] that is left out of the
    returned frame (not even its label occurs there), while every other row
    of the key is returned.  [kept] has the latest [modified] of the group (a
    missing one counting as earliest); among the rows with that [modified] it
    has the earliest [created] (a missing one counting as latest); and a row
    that ties with it on both stands after it in the inventory. *)
Theorem find_duplicate_agents_keeps_newest :
  forall (inv : DataFrame Timestamp) (w : World) (k : Key),
    NoDup (index inv) ->
    2 <= count_key k (col (@key_of Timestamp) inv) ->
    exists to_remove w' kept,
      find_duplicate_agents inv w = (Returned to_remove, w') /\
      In kept inv /\ key_of (snd kept) = k /\
      ~ In (fst kept) (index to_remove) /\
      forall y, In y inv -> key_of (snd y) = k -> y <> kept ->
        In y to_remove /\
        no_later_NaT_earliest (modified (snd y)) (modified (snd kept)) /\
        (modified (snd y) = modified (snd kept) ->
         no_later_NaT_latest (created (snd kept)) (created (snd y))) /\
        (modified (snd y) = modified (snd kept) ->
         created (snd y) = created (snd kept) ->
         precedes inv kept y).
Proof.
  intros inv w k Hnd Hk.
  destruct (@marked_group inv k Hnd Hk) as (kept & Hin & Kk & Hnot & Hall).
  eexists (marked inv), _, kept.
  split; [apply find_duplicate_agents_run|].
  repeat (split; [assumption|]).
  intros y Hy Ky Hne. destruct (Hall y Hy Ky Hne) as [Hm Hp].
  split; [exact Hm|].
  assert (K : key_of (snd kept) = key_of (snd y)) by congruence.
  pose proof (@sort_values_ordered _ _ _ Hp) as Hle.
  destruct (@row_leb_same_key _ _ K Hle) as [H1 H2].
  split; [exact H1|]. split; [exact H2|].
  intros Em Ec.
  destruct (@precedes_total _ inv kept y) as [P|P]; trivial; [congruence|].
  exfalso.
  assert (Dy : is_duplicated inv y = true).
  { unfold is_duplicated. rewrite Ky. apply Nat.leb_le. exact Hk. }
  assert (Dk : is_duplicated inv kept = true).
  { unfold is_duplicated. rewrite Kk. apply Nat.leb_le. exact Hk. }
  pose proof (@precedes_filter _ (is_duplicated inv) _ _ _ P Dy Dk) as P'.
  apply sort_values_stable in P'.
  - apply (@precedes_asym _ _ _ _ (@NoDup_of_map _ _ _ _ (@sorted_duplicates_NoDup _ Hnd)) Hp P').
  - apply row_leb_tie; congruence.
Qed.

Lemma find_duplicate_agents_keeps_newest_witness :
  NoDup (index scenario_inventory) /\
  2 <= count_key host_a_key (col (@key_of Timestamp) scenario_inventory) /\
  exists to_remove w' kept,
    find_duplicate_agents scenario_inventory w0 = (Returned to_remove, w') /\
    In kept scenario_inventory /\
    ~ In (fst kept) (index to_remove) /\
    forall y, In y scenario_inventory -> y <> kept -> In y to_remove.
Proof.
  assert (Hnd : NoDup (index scenario_inventory)) by nodup.
  assert (Hk : 2 <= count_key host_a_key (col (@key_of Timestamp) scenario_inventory))
    by (simpl; lia).
  split; [exact Hnd|]. split; [exact Hk|].
  destruct (@find_duplicate_agents_keeps_newest scenario_inventory w0 host_a_key Hnd Hk)
    as (to_remove & w' & kept & Hrun & Hin & _ & Hnot & Hall).
  exists to_remove, w', kept.
  repeat (split; [assumption|]).
  intros y Hy Hne. apply Hall; trivial.
  simpl in Hy. destruct Hy as [E|[E|[]]]; subst y; reflexivity.
Defined.

(** C2.  When no two rows of the inventory have the same (hostname, address)
    pair, as in the empty inventory, the selector returns the empty frame
    (and logs that it found and marked nothing). *)
Theorem find_duplicate_agents_no_repeated_key :
  forall (inv : DataFrame Timestamp) (w : World),
    NoDup (col (@key_of Timestamp) inv) ->
    find_duplicate_agents inv w =
    (Returned [],
     mkWorld (log w ++ [MsgIdentifying; MsgFound 0; MsgMarked 0]) (trace w)).
Proof.
  intros inv w Hnd. rewrite find_duplicate_agents_run.
  assert (E : filter (is_duplicated inv) inv = []).
  { apply filter_nil. intros x _. unfold is_duplicated.
    apply Nat.leb_gt.
    pose proof (@count_key_NoDup (key_of (snd x)) _ Hnd). lia. }
  rewrite (@marked_no_duplicates _ E), E. reflexivity.
Qed.

Lemma find_duplicate_agents_no_repeated_key_witness :
  NoDup (col (@key_of Timestamp) distinct_inventory) /\
  find_duplicate_agents distinct_inventory w0 =
  (Returned [], mkWorld [MsgIdentifying; MsgFound 0; MsgMarked 0] []).
Proof.
  assert (Hnd : NoDup (col (@key_of Timestamp) distinct_inventory)) by nodup.
  split; [exact Hnd|].
  exact (@find_duplicate_agents_no_repeated_key distinct_inventory w0 Hnd).
Defined.

Example find_duplicate_agents_empty (w : World) :
  find_duplicate_agents [] w =
  (Returned [],
   mkWorld (log w ++ [MsgIdentifying; MsgFound 0; MsgMarked 0]) (trace w)).
Proof. apply find_duplicate_agents_run. Qed.

(** C3, as stated, fails on the empty inventory: the selector returns the
    empty frame, which is no strict subset of the empty inventory. *)
Lemma find_duplicate_agents_strict_subset_counterexample :
  find_duplicate_agents [] w0 =
    (Returned [], mkWorld [MsgIdentifying; MsgFound 0; MsgMarked 0] []) /\
  ~ strict_subset (index (@nil (Label * Row Timestamp)))
                  (index (@nil (Label * Row Timestamp))).
Proof.
  split; [reflexivity|].
  intros [_ (y & Hy & _)]. exact Hy.
Qed.

(** C3, amended.  Every row the selector returns is a row of the inventory,
    label and contents; no row whose key occurs once is returned; the
    returned labels are distinct when the inventory's are; and for a
    non-empty inventory the subset is strict: some row of the inventory has a
    label that is not returned, and, when the ids of the inventory are
    distinct, an id that is not returned. *)
Theorem find_duplicate_agents_subset :
  forall (inv : DataFrame Timestamp) (w : World),
    exists to_remove w',
      find_duplicate_agents inv w = (Returned to_remove, w') /\
      incl to_remove inv /\
      (forall x, In x inv ->
         count_key (key_of (snd x)) (col (@key_of Timestamp) inv) < 2 ->
         ~ In x to_remove) /\
      (NoDup (index inv) -> NoDup (index to_remove)) /\
      (inv <> [] -> exists x, In x inv /\ ~ In (fst x) (index to_remove)) /\
      (inv <> [] -> NoDup (col (@id Timestamp) inv) ->
       exists x, In x inv /\ ~ In (id (snd x)) (col (@id Timestamp) to_remove)).
Proof.
  intros inv w. eexists (marked inv), _.
  split; [apply find_duplicate_agents_run|].
  assert (Hincl : incl (marked inv) inv).
  { intros x Hx. apply (@marked_In _ _ Hx). }
  assert (Hstrict : inv <> [] ->
            exists x, In x inv /\ ~ In (fst x) (index (marked inv))).
  { intros Hne. unfold marked.
    destruct (sort_values (filter (is_duplicated inv) inv)) as [|x s] eqn:Es.
    - destruct inv as [|x inv]; [congruence|].
      exists x. simpl. auto.
    - assert (Hx : In x inv).
      { assert (H : In x (sort_values (filter (is_duplicated inv) inv)))
          by (rewrite Es; simpl; auto).
        apply In_stable_sort in H. apply filter_In in H. tauto. }
      exists x. split; [exact Hx|].
      unfold index at 1. rewrite in_map_iff.
      intros (z & Ez & Hz). apply filter_In in Hz. destruct Hz as [_ Hz].
      apply negb_true_iff in Hz. simpl in Hz.
      apply orb_false_elim in Hz. destruct Hz as [Hz _].
      apply Nat.eqb_neq in Hz. exact (Hz Ez). }
  split; [exact Hincl|]. split; [|split; [|split]].
  - intros x _ Hc Hx. apply marked_In in Hx. lia.
  - intros Hnd. unfold marked. apply index_filter_NoDup.
    apply (@sorted_duplicates_NoDup _ Hnd).
  - exact Hstrict.
  - intros Hne Hid. destruct (Hstrict Hne) as (x & Hx & Hlab).
    exists x. split; [exact Hx|].
    unfold col. rewrite in_map_iff. intros (z & Ez & Hz).
    apply Hlab. unfold index. apply in_map_iff. exists z. split; [|exact Hz].
    f_equal.
    apply (@distinct_image_inj _ _ (fun r => id (snd r)) inv); auto.
Qed.

Lemma find_duplicate_agents_subset_witness :
  exists to_remove w',
    find_duplicate_agents scenario_inventory w0 = (Returned to_remove, w') /\
    incl to_remove scenario_inventory /\
    NoDup (index to_remove) /\
    (exists x, In x scenario_inventory /\ ~ In (fst x) (index to_remove)) /\
    (exists x, In x scenario_inventory /\
               ~ In (id (snd x)) (col (@id Timestamp) to_remove)).
Proof.
  destruct (find_duplicate_agents_subset scenario_inventory w0)
    as (to_remove & w' & Hrun & Hincl & _ & Hnd & Hstrict & Hid).
  exists to_remove, w'.
  split; [exact Hrun|]. split; [exact Hincl|].
  split; [apply Hnd; nodup|].
  split; [apply Hstrict; discriminate|].
  apply Hid; [discriminate|nodup].
Defined.

(** C10.  Running the selector a second time on the same inventory, in the
    world the first run left, returns the same frame as the first run; both
    runs return, and neither touches the network. *)
Theorem find_duplicate_agents_twice :
  forall (inv : DataFrame Timestamp) (w : World),
    exists to_remove w1 w2,
      find_duplicate_agents inv w = (Returned to_remove, w1) /\
      find_duplicate_agents inv w1 = (Returned to_remove, w2) /\
      trace w2 = trace w.
Proof.
  intros inv w.
  eexists (marked inv), _, _.
  split; [apply find_duplicate_agents_run|].
  split; [apply find_duplicate_agents_run|].
  reflexivity.
Qed.

(* ================================================================== *)
(** * Missing timestamps *)

Lemma nth_error_combine_seq (A : Type) (l : list A) (s i : nat) (x : A) :
  nth_error l i = Some x ->
  nth_error (combine (seq s (length l)) l) i = Some (s + i, x).
Proof.
  revert s i. induction l as [|a l IH]; intros s i H.
  - destruct i; discriminate.
  - destruct i as [|i]; simpl in *.
    + injection H as ->. rewrite Nat.add_0_r. reflexivity.
    + rewrite (IH (S s) i H). f_equal. f_equal. lia.
Qed.

Lemma convert_timestamps_nth (to_datetime : list string -> nat -> Timestamp)
  (raw : DataFrame string) (i : nat) (l : Label) (r : Row string) :
  nth_error raw i = Some (l, r) ->
  nth_error (convert_timestamps to_datetime raw) i =
  Some (l, mkRow (id r) (hostname r) (address r)
                 (to_datetime (col (@created string) raw) i)
                 (to_datetime (col (@modified string) raw) i)).
Proof.
  intros H. unfold convert_timestamps.
  rewrite nth_error_map, (nth_error_combine_seq _ 0 _ H). reflexivity.
Qed.

(** C5, as stated, fails for [created]: of two rows of one group with the
    same [modified], the one whose [created] is missing is sorted after the
    one whose [created] parsed, and so it is the one marked for removal. *)
Lemma NaT_created_sorts_earliest_counterexample :
  sort_values unparsed_created_inventory = [parsed_created_row; unparsed_created_row] /\
  ~ NaT_created_sorts_earliest unparsed_created_inventory /\
  value (find_duplicate_agents unparsed_created_inventory w0)
  = Returned [unparsed_created_row].
Proof.
  split; [reflexivity|]. split; [|reflexivity].
  intros H.
  assert (P : precedes (sort_values unparsed_created_inventory)
                       unparsed_created_row parsed_created_row).
  { apply H; simpl; auto; discriminate. }
  change (sort_values unparsed_created_inventory)
    with [parsed_created_row; unparsed_created_row] in P.
  apply precedes_cons in P. destruct P as [[E _]|P]; [discriminate E|].
  apply precedes_cons in P. destruct P as [[_ []]|P].
  exact (precedes_nil P).
Qed.

(** C5, amended.  The fetcher replaces the [created] and [modified] text of
    every row by what [to_datetime] makes of it (a timestamp, or [NaT] when
    it does not parse), leaving labels and the other columns alone.  In the
    selector's sort a missing value comes last in either key: within a group
    a row without [modified] stands after every row with one (it sorts as the
    earliest under the descending order), and among rows with the same
    [modified] a row without [created] stands after every row with one (it
    sorts as the latest under the ascending order).  The sort is stable:
    rows that tie on all keys, missing values included, keep their order. *)
Theorem timestamps_and_missing_values :
  (forall (to_datetime : list string -> nat -> Timestamp)
          (raw : DataFrame string) (i : nat) (l : Label) (r : Row string),
      nth_error raw i = Some (l, r) ->
      nth_error (convert_timestamps to_datetime raw) i =
      Some (l, mkRow (id r) (hostname r) (address r)
                     (to_datetime (col (@created string) raw) i)
                     (to_datetime (col (@modified string) raw) i))) /\
  (forall (df : DataFrame Timestamp) (a b : Label * Row Timestamp),
      In a df -> In b df ->
      key_of (snd a) = key_of (snd b) ->
      (modified (snd a) <> NaT -> modified (snd b) = NaT ->
       precedes (sort_values df) a b) /\
      (modified (snd a) = modified (snd b) ->
       created (snd a) <> NaT -> created (snd b) = NaT ->
       precedes (sort_values df) a b) /\
      (modified (snd a) = modified (snd b) ->
       created (snd a) = created (snd b) ->
       precedes df a b ->
       precedes (sort_values df) a b)).
Proof.
  split; [exact convert_timestamps_nth|].
  intros df a b Ha Hb K. split; [|split].
  - intros Hm Hn. apply sort_values_strict; trivial.
    rewrite (@row_compare_same_key _ _ K), Hn.
    destruct (modified (snd a)); [reflexivity|]. destruct Hm. reflexivity.
  - intros Em Hc Hn. apply sort_values_strict; trivial.
    rewrite (@row_compare_same_key _ _ K), Hn.
    apply compare_desc_Eq in Em. rewrite Em. simpl.
    destruct (created (snd a)); [reflexivity|]. destruct Hc. reflexivity.
  - intros Em Ec P. apply sort_values_stable; trivial.
    apply row_leb_tie; trivial.
Qed.

Lemma timestamps_and_missing_values_witness :
  precedes (sort_values unparsed_created_inventory)
           parsed_created_row unparsed_created_row.
Proof.
  destruct timestamps_and_missing_values as [_ H].
  destruct (H unparsed_created_inventory parsed_created_row unparsed_created_row)
    as (_ & H2 & _).
  - simpl; auto.
  - simpl; auto.
  - reflexivity.
  - apply H2; [reflexivity|discriminate|reflexivity].
Defined.

(* ================================================================== *)
(** * The agent remover *)

(* The lemmas below take all their arguments explicitly. *)
Unset Implicit Arguments.

Lemma opt_eqb_eq (o : option string) (s : string) :
  opt_eqb o s = true <-> o = Some s.
Proof.
  destruct o as [t|]; simpl.
  - rewrite String.eqb_eq. split; congruence.
  - split; discriminate.
Qed.

Lemma opt_eqb_neq (o : option string) (s : string) :
  opt_eqb o s = false <-> o <> Some s.
Proof.
  rewrite <- opt_eqb_eq. destruct (opt_eqb o s); split; congruence.
Qed.


Section RemoverFacts.
Variable remote : Remote.

Lemma remove_one_dry_run (agent : Row Timestamp) (w : World) :
  remove_one remote agent true w =
  (Returned tt,
   mkWorld (log w ++ [MsgAgent true (id agent) (hostname agent) (address agent)])
           (trace w)).
Proof. reflexivity. Qed.

Lemma remove_one_responds (agent : Row Timestamp) (w : World) (root : Document) :
  remote (trace w ++ [EvSleep]) (UninstallCall (id agent)) = Responds root ->
  remove_one remote agent false w =
  (Returned tt,
   mkWorld (log w ++ [MsgAgent false (id agent) (hostname agent) (address agent);
                      if uninstall_succeeded root
                      then MsgUninstalled (id agent) (hostname agent) (address agent)
                                          (created agent) (modified agent)
                      else MsgFailed (id agent) (hostname agent) (address agent)
                                     (responseCode root) (count root)])
           (trace w ++ [EvSleep; EvPost (UninstallCall (id agent))])).
Proof.
  intros H.
  unfold remove_one, bind, try_except, time_sleep, requests_post, log_debug, ret.
  simpl. rewrite H.
  destruct (uninstall_succeeded root); simpl; rewrite <- !app_assoc; reflexivity.
Qed.

Lemma remove_one_raises (agent : Row Timestamp) (w : World) (e : Exn) :
  remote (trace w ++ [EvSleep]) (UninstallCall (id agent)) = Raises e ->
  remove_one remote agent false w =
  (Returned tt,
   mkWorld (log w ++ [MsgAgent false (id agent) (hostname agent) (address agent);
                      MsgUninstallError (id agent) e])
           (trace w ++ [EvSleep; EvPost (UninstallCall (id agent))])).
Proof.
  intros H.
  unfold remove_one, bind, try_except, time_sleep, requests_post, log_debug, ret.
  simpl. rewrite H. simpl. rewrite <- !app_assoc. reflexivity.
Qed.

Lemma remove_each_cons (l : Label) (agent : Row Timestamp)
  (rest : DataFrame Timestamp) (dry_run : bool) (w w1 : World) :
  remove_one remote agent dry_run w = (Returned tt, w1) ->
  remove_each remote ((l, agent) :: rest) dry_run w = remove_each remote rest dry_run w1.
Proof. intros H. simpl. unfold bind. rewrite H. reflexivity. Qed.

Lemma uninstall_calls_app (t1 t2 : list Event) :
  uninstall_calls (t1 ++ t2) = uninstall_calls t1 ++ uninstall_calls t2.
Proof.
  induction t1 as [|ev t1 IH]; simpl; trivial.
  destruct ev as [|[tm lim off|i]]; simpl; rewrite IH; reflexivity.
Qed.

(** A live turn of the loop always falls through to the next candidate,
    having posted exactly one uninstall request, for this agent. *)
Lemma remove_one_live (agent : Row Timestamp) (w : World) :
  exists w1,
    remove_one remote agent false w = (Returned tt, w1) /\
    uninstall_calls (trace w1) = uninstall_calls (trace w) ++ [id agent].
Proof.
  destruct (remote (trace w ++ [EvSleep]) (UninstallCall (id agent))) as [e|root] eqn:E.
  - eexists. split; [apply (remove_one_raises _ _ _ E)|].
    simpl. rewrite uninstall_calls_app. reflexivity.
  - eexists. split; [apply (remove_one_responds _ _ _ E)|].
    simpl. rewrite uninstall_calls_app. reflexivity.
Qed.

Lemma remove_each_live (agents : DataFrame Timestamp) (w : World) :
  exists w',
    remove_each remote agents false w = (Returned tt, w') /\
    uninstall_calls (trace w') =
    uninstall_calls (trace w) ++ col (@id Timestamp) agents.
Proof.
  revert w. induction agents as [|[l agent] rest IH]; intros w.
  - exists w. simpl. rewrite app_nil_r. auto.
  - destruct (remove_one_live agent w) as (w1 & H1 & T1).
    destruct (IH w1) as (w' & H' & T').
    exists w'. split.
    + rewrite (remove_each_cons l agent rest false w w1 H1). exact H'.
    + rewrite T', T1, <- app_assoc. reflexivity.
Qed.

Lemma remove_each_dry_run (agents : DataFrame Timestamp) (w : World) :
  remove_each remote agents true w =
  (Returned tt,
   mkWorld (log w ++ map (fun x => MsgAgent true (id (snd x)) (hostname (snd x))
                                            (address (snd x))) agents)
           (trace w)).
Proof.
  revert w. induction agents as [|[l agent] rest IH]; intros w.
  - simpl. rewrite app_nil_r. destruct w; reflexivity.
  - rewrite (remove_each_cons l agent rest true w _ (remove_one_dry_run agent w)), IH.
    simpl. rewrite <- app_assoc. reflexivity.
Qed.

End RemoverFacts.

Lemma remove_one_live_log (remote : Remote) (agent : Row Timestamp) (w : World) :
  exists w1 line,
    remove_one remote agent false w = (Returned tt, w1) /\
    log w1 = log w ++ [MsgAgent false (id agent) (hostname agent) (address agent);
                       line] /\
    uninstall_calls (trace w1) = uninstall_calls (trace w) ++ [id agent].
Proof.
  destruct (remote (trace w ++ [EvSleep]) (UninstallCall (id agent))) as [e|root] eqn:E.
  - eexists _, _. split; [apply (remove_one_raises remote agent w e E)|].
    split; [reflexivity|].
    cbn [trace]. rewrite uninstall_calls_app. reflexivity.
  - eexists _, _. split; [apply (remove_one_responds remote agent w root E)|].
    split; [reflexivity|].
    cbn [trace]. rewrite uninstall_calls_app. reflexivity.
Qed.

(** The live loop ends normally; it only adds to the log, and posts one
    uninstall request per candidate, in order. *)
Lemma remove_each_live_log (remote : Remote) (agents : DataFrame Timestamp) :
  forall w : World,
    exists w' more,
      remove_each remote agents false w = (Returned tt, w') /\
      log w' = log w ++ more /\
      uninstall_calls (trace w') =
      uninstall_calls (trace w) ++ col (@id Timestamp) agents.
Proof.
  induction agents as [|[l agent] rest IH]; intros w.
  - exists w, []. simpl. rewrite !app_nil_r. auto.
  - destruct (remove_one_live_log remote agent w) as (w1 & line & H1 & L1 & T1).
    destruct (IH w1) as (w' & more & H' & L' & T').
    eexists w', _. split; [|split].
    + rewrite (remove_each_cons remote l agent rest false w w1 H1). exact H'.
    + rewrite L', L1, <- app_assoc. reflexivity.
    + rewrite T', T1, <- app_assoc. reflexivity.
Qed.

(** The candidates before a given one are dealt with first. *)
Lemma remove_each_app (remote : Remote) (pre rest : DataFrame Timestamp) :
  forall w w1 : World,
    remove_each remote pre false w = (Returned tt, w1) ->
    remove_each remote (pre ++ rest) false w = remove_each remote rest false w1.
Proof.
  induction pre as [|[l agent] pre IH]; intros w w1 H.
  - simpl in H. injection H as <-. reflexivity.
  - destruct (remove_one_live_log remote agent w) as (w2 & line & H2 & _ & _).
    rewrite (remove_each_cons remote l agent pre false w w2 H2) in H.
    cbn [app]. rewrite (remove_each_cons remote l agent (pre ++ rest) false w w2 H2).
    apply IH. exact H.
Qed.



(** C7.  In live mode the run ends normally whatever the platform does,
    having posted one uninstall request per candidate, in the order of the
    candidates.  When the request of a candidate raises an exception, the
    turn of the loop for that candidate raises nothing and logs, after the
    line that names the agent, the exception with the candidate's id.  And
    wherever that candidate stands in the list: the final log of the run
    holds these two lines right after what was logged for the candidates
    before it, and the uninstall requests of all the candidates after it have
    been posted. *)
Theorem remove_cloud_agents_isolates_failures :
  forall (remote : Remote),
    (forall (agents : DataFrame Timestamp) (w : World),
        exists w',
          remove_cloud_agents remote agents false w = (Returned tt, w') /\
          uninstall_calls (trace w') =
          uninstall_calls (trace w) ++ col (@id Timestamp) agents) /\
    (forall (agent : Row Timestamp) (w : World) (e : Exn),
        remote (trace w ++ [EvSleep]) (UninstallCall (id agent)) = Raises e ->
        remove_one remote agent false w =
        (Returned tt,
         mkWorld (log w ++ [MsgAgent false (id agent) (hostname agent) (address agent);
                            MsgUninstallError (id agent) e])
                 (trace w ++ [EvSleep; EvPost (UninstallCall (id agent))]))) /\
    (forall (pre rest : DataFrame Timestamp) (l : Label) (agent : Row Timestamp)
            (w w1 : World) (e : Exn),
        remove_cloud_agents remote pre false w = (Returned tt, w1) ->
        remote (trace w1 ++ [EvSleep]) (UninstallCall (id agent)) = Raises e ->
        exists w' more,
          remove_cloud_agents remote (pre ++ (l, agent) :: rest) false w
          = (Returned tt, w') /\
          log w' =
          log w1 ++ [MsgAgent false (id agent) (hostname agent) (address agent);
                     MsgUninstallError (id agent) e] ++ more /\
          uninstall_calls (trace w') =
          uninstall_calls (trace w1) ++ id agent :: col (@id Timestamp) rest).
Proof.
  intros remote. split; [|split].
  - intros agents w. unfold remove_cloud_agents, bind. simpl.
    destruct (remove_each_live remote agents
                (mkWorld (log w ++ [MsgStartRemoval]) (trace w))) as (w' & H & T).
    exists w'. split; assumption.
  - intros agent w e H. apply remove_one_raises. exact H.
  - intros pre rest l agent w w1 e Hpre Hraise.
    unfold remove_cloud_agents, log_debug in *.
    unfold bind at 1 in Hpre. unfold bind at 1.
    rewrite (remove_each_app remote pre ((l, agent) :: rest) _ w1 Hpre).
    pose proof (remove_one_raises remote agent w1 e Hraise) as Hone.
    rewrite (remove_each_cons remote l agent rest false w1 _ Hone).
    destruct (remove_each_live_log remote rest
                (mkWorld
                   (log w1 ++ [MsgAgent false (id agent) (hostname agent) (address agent);
                               MsgUninstallError (id agent) e])
                   (trace w1 ++ [EvSleep; EvPost (UninstallCall (id agent))])))
      as (w' & more & Hrun & Hlog & Hcalls).
    exists w', more. split; [exact Hrun|]. split.
    + rewrite Hlog. cbn [log]. rewrite <- app_assoc. reflexivity.
    + rewrite Hcalls. cbn [trace].
      rewrite uninstall_calls_app, <- app_assoc. reflexivity.
Qed.

Lemma remove_cloud_agents_isolates_failures_witness :
  remove_one failing_remote
    (mkRow "2" "host-a" "10.0.0.1" (Some 100%Z) (Some 300%Z)) false w0 =
  (Returned tt,
   mkWorld [MsgAgent false "2" "host-a" "10.0.0.1";
            MsgUninstallError "2" (RequestException "timed out")]
           [EvSleep; EvPost (UninstallCall "2")]) /\
  exists w' more,
    remove_cloud_agents failing_remote (scenario_inventory ++ [host_b_row]) false w0
    = (Returned tt, w') /\
    log w' = [MsgStartRemoval;
              MsgAgent false "1" "host-a" "10.0.0.1";
              MsgFailed "1" "host-a" "10.0.0.1"
                        (Some "SUCCESS"%string) (Some "0"%string)] ++
             [MsgAgent false "2" "host-a" "10.0.0.1";
              MsgUninstallError "2" (RequestException "timed out")] ++ more /\
    uninstall_calls (trace w') = ["1"%string] ++ ["2"%string; "3"%string].
Proof.
  destruct (remove_cloud_agents_isolates_failures failing_remote)
    as (_ & Hone & Hrun).
  split.
  - exact (Hone (mkRow "2" "host-a" "10.0.0.1" (Some 100%Z) (Some 300%Z)) w0
             (RequestException "timed out") eq_refl).
  - exact (Hrun [(0, mkRow "1" "host-a" "10.0.0.1" (Some 100%Z) (Some 200%Z))]
             [host_b_row]
             1 (mkRow "2" "host-a" "10.0.0.1" (Some 100%Z) (Some 300%Z))
             w0
             (mkWorld [MsgStartRemoval;
                       MsgAgent false "1" "host-a" "10.0.0.1";
                       MsgFailed "1" "host-a" "10.0.0.1"
                                 (Some "SUCCESS"%string) (Some "0"%string)]
                      [EvSleep; EvPost (UninstallCall "1")])
             (RequestException "timed out")
             eq_refl eq_refl).
Defined.

(** C8.  A dry run returns normally, leaves the sequence of network events
    as it was (no uninstall request, no request at all), and after the
    opening line logs exactly one line per candidate, in the order of the
    candidates. *)
Theorem remove_cloud_agents_dry_run :
  forall (remote : Remote) (agents : DataFrame Timestamp) (w : World),
    remove_cloud_agents remote agents true w =
    (Returned tt,
     mkWorld (log w ++ MsgStartRemoval ::
                map (fun x => MsgAgent true (id (snd x)) (hostname (snd x))
                                       (address (snd x))) agents)
             (trace w)).
Proof.
  intros remote agents w. unfold remove_cloud_agents, bind. simpl.
  rewrite remove_each_dry_run. simpl. rewrite <- app_assoc. reflexivity.
Qed.

(* ================================================================== *)
(** * The inventory fetcher *)

Lemma map_snd_reindex (T : Type) (rows : list (Row T)) :
  map snd (reindex rows) = rows.
Proof.
  unfold reindex. generalize 0 as s.
  induction rows as [|r rows IH]; intros s; simpl; [reflexivity|].
  rewrite IH. reflexivity.
Qed.

Lemma index_reindex (T : Type) (rows : list (Row T)) :
  index (reindex rows) = seq 0 (length rows).
Proof.
  unfold reindex, index. generalize 0 as s.
  induction rows as [|r rows IH]; intros s; simpl; [reflexivity|].
  rewrite IH. reflexivity.
Qed.

Lemma searches_S (offset : Z) (n : nat) :
  searches offset (S n) =
  EvPost (SearchCall "QAGENT" 1000 offset) :: searches (offset + 1000) n.
Proof.
  unfold searches. cbn [seq map]. rewrite <- seq_shift, map_map.
  f_equal.
  - do 2 f_equal. lia.
  - apply map_ext. intros i. do 2 f_equal. lia.
Qed.

Lemma searches_snoc (offset : Z) (n : nat) :
  searches offset (S n) =
  searches offset n ++
  [EvPost (SearchCall "QAGENT" 1000 (offset + 1000 * Z.of_nat n))].
Proof.
  unfold searches. rewrite seq_S, map_app. reflexivity.
Qed.

Lemma served_app (remote : Remote) (ds1 ds2 : list Document) (tr : list Event)
  (offset : Z) :
  served remote tr offset (ds1 ++ ds2) <->
  served remote tr offset ds1 /\
  served remote (tr ++ searches offset (length ds1))
         (offset + 1000 * Z.of_nat (length ds1)) ds2.
Proof.
  revert tr offset. induction ds1 as [|d ds1 IH]; intros tr offset.
  - simpl. rewrite app_nil_r, Z.add_0_r. tauto.
  - cbn [app served length]. rewrite IH, searches_S, <- app_assoc.
    cbn [app].
    replace (offset + 1000 + 1000 * Z.of_nat (length ds1))%Z
      with (offset + 1000 * Z.of_nat (S (length ds1)))%Z by lia.
    tauto.
Qed.

Section FetcherFacts.
Variable remote : Remote.
Variable str_lower : string -> string.
Variable to_datetime : list string -> nat -> Timestamp.

Lemma append_entries_reindex (rows : list (Row string)) (entries : list Entry) :
  append_entries str_lower (reindex rows) entries =
  reindex (rows ++ map (row_of_entry str_lower) entries).
Proof.
  revert rows. induction entries as [|entry entries IH]; intros rows.
  - simpl. rewrite app_nil_r. reflexivity.
  - unfold append_entries in *. cbn [fold_left map].
    unfold pd_concat_ignore_index at 2. rewrite map_snd_reindex.
    cbn [map snd]. rewrite IH, <- app_assoc. reflexivity.
Qed.

Lemma fetch_page_responds (offset : Z) (agents_data : DataFrame string)
  (w : World) (root : Document) :
  remote (trace w) (SearchCall "QAGENT" 1000 offset) = Responds root ->
  fetch_page remote str_lower offset agents_data w =
  (Returned
     (if opt_eqb (hasMoreRecords root) "true"
      then Continue (offset + 1000, append_entries str_lower agents_data (host_assets root))%Z
      else Break (offset, append_entries str_lower agents_data (host_assets root))),
   mkWorld (log w) (trace w ++ [EvPost (SearchCall "QAGENT" 1000 offset)])).
Proof.
  intros H. unfold fetch_page, try_except, bind, requests_post, tracking_method.
  rewrite H. destruct (opt_eqb (hasMoreRecords root) "true"); reflexivity.
Qed.

Lemma fetch_page_request_exception (offset : Z) (agents_data : DataFrame string)
  (w : World) (msg : string) :
  remote (trace w) (SearchCall "QAGENT" 1000 offset) = Raises (RequestException msg) ->
  fetch_page remote str_lower offset agents_data w =
  (Returned (Break (offset, agents_data)),
   mkWorld (log w ++ [MsgFetchError (RequestException msg)])
           (trace w ++ [EvPost (SearchCall "QAGENT" 1000 offset)])).
Proof.
  intros H. unfold fetch_page, try_except, bind, requests_post, tracking_method.
  rewrite H. reflexivity.
Qed.

(** As long as the pages say there is more, the loop requests the next. *)
Lemma fetch_loop_pages (docs : list Document) :
  Forall (fun d => hasMoreRecords d = Some "true"%string) docs ->
  forall (fuel : nat) (offset : Z) (rows : list (Row string)) (w : World),
    served remote (trace w) offset docs ->
    fetch_loop remote str_lower (length docs + fuel) offset (reindex rows) w =
    fetch_loop remote str_lower fuel
      (offset + 1000 * Z.of_nat (length docs))
      (reindex (rows ++ map (row_of_entry str_lower) (flat_map host_assets docs)))
      (mkWorld (log w) (trace w ++ searches offset (length docs))).
Proof.
  induction 1 as [|d docs Hd Hdocs IH]; intros fuel offset rows w Hs.
  - simpl. rewrite !app_nil_r, Z.add_0_r. destruct w; reflexivity.
  - destruct Hs as [Hd' Hs]. cbn [length Nat.add fetch_loop]. unfold bind at 1.
    rewrite (fetch_page_responds _ _ _ _ Hd').
    apply opt_eqb_eq in Hd. rewrite Hd.
    rewrite append_entries_reindex.
    rewrite (IH fuel _ _ (mkWorld (log w)
               (trace w ++ [EvPost (SearchCall "QAGENT" 1000 offset)])) Hs).
    cbn [log trace flat_map]. rewrite searches_S, map_app, <- !app_assoc.
    cbn [app].
    replace (offset + 1000 + 1000 * Z.of_nat (length docs))%Z
      with (offset + 1000 * Z.of_nat (S (length docs)))%Z by lia.
    reflexivity.
Qed.

End FetcherFacts.

Lemma fetch_cloud_agents_complete (remote : Remote) (str_lower : string -> string)
  (to_datetime : list string -> nat -> Timestamp)
  (docs : list Document) (last : Document) (fuel : nat) (w : World) :
  Forall (fun d => hasMoreRecords d = Some "true"%string) docs ->
  hasMoreRecords last <> Some "true"%string ->
  served remote (trace w) 1 (docs ++ [last]) ->
  length docs < fuel ->
  fetch_cloud_agents remote str_lower to_datetime fuel w =
  (Returned
     (convert_timestamps to_datetime
        (reindex (map (row_of_entry str_lower)
                      (flat_map host_assets (docs ++ [last]))))),
   mkWorld (log w ++ [MsgFetching]) (trace w ++ searches 1 (S (length docs)))).
Proof.
  intros Hmore Hlast Hs Hfuel.
  apply served_app in Hs. destruct Hs as [Hs1 [Hs2 _]].
  unfold fetch_cloud_agents, bind at 1, log_debug.
  replace fuel with (length docs + S (fuel - S (length docs))) by lia.
  unfold bind at 1. change (@nil (Label * Row string)) with (@reindex string []).
  rewrite (fetch_loop_pages remote str_lower docs Hmore _ _ _
             (mkWorld (log w ++ [MsgFetching]) (trace w)) Hs1).
  cbn [fetch_loop log trace app]. unfold bind at 1.
  rewrite (fetch_page_responds remote str_lower _ _
             (mkWorld (log w ++ [MsgFetching])
                      (trace w ++ searches 1 (length docs))) last Hs2).
  apply opt_eqb_neq in Hlast. rewrite Hlast.
  rewrite append_entries_reindex.
  unfold ret. cbn [log trace].
  rewrite searches_snoc, flat_map_app, map_app, <- app_assoc.
  cbn [flat_map]. rewrite app_nil_r. reflexivity.
Qed.

(** C9.  When the platform answers the page requests with the documents
    [docs], each saying there is more, and then with [last], which does not,
    the fetcher, given fuel for these pages, returns the frame of all their
    entries in order, one row per entry ([name] lower-cased, an absent field
    read as the empty string), labelled from 0, with the two date columns
    converted.  It has requested tracking method "QAGENT" with page size
    1000 at offsets 1, 1001, 2001, ..., one request per page and none after
    [last]. *)
Theorem fetch_cloud_agents_pages :
  forall (remote : Remote) (str_lower : string -> string)
         (to_datetime : list string -> nat -> Timestamp)
         (docs : list Document) (last : Document) (fuel : nat) (w : World),
    Forall (fun d => hasMoreRecords d = Some "true"%string) docs ->
    hasMoreRecords last <> Some "true"%string ->
    served remote (trace w) 1 (docs ++ [last]) ->
    length docs < fuel ->
    fetch_cloud_agents remote str_lower to_datetime fuel w =
    (Returned
       (convert_timestamps to_datetime
          (reindex (map (row_of_entry str_lower)
                        (flat_map host_assets (docs ++ [last]))))),
     mkWorld (log w ++ [MsgFetching])
             (trace w ++
              map (fun i => EvPost (SearchCall "QAGENT" 1000 (1 + 1000 * Z.of_nat i)))
                  (seq 0 (S (length docs))))) /\
    forall entry,
      row_of_entry str_lower entry =
      mkRow (findtext_default (e_id entry) "")
            (str_lower (findtext_default (e_name entry) ""))
            (findtext_default (e_address entry) "")
            (findtext_default (e_created entry) "")
            (findtext_default (e_modified entry) "").
Proof.
  intros remote str_lower to_datetime docs last fuel w Hmore Hlast Hs Hfuel.
  split; [|reflexivity].
  apply fetch_cloud_agents_complete; assumption.
Qed.

Lemma fetch_cloud_agents_pages_witness :
  fetch_cloud_agents two_page_remote lower no_datetime 2 w0 =
  (Returned [(0, mkRow "1" "host-a" "10.0.0.1" NaT NaT);
             (1, mkRow "2" "host-b" "" NaT NaT)],
   mkWorld [MsgFetching]
           [EvPost (SearchCall "QAGENT" 1000 1);
            EvPost (SearchCall "QAGENT" 1000 1001)]).
Proof.
  refine (proj1 (fetch_cloud_agents_pages two_page_remote lower no_datetime
                   [page1] page2 2 w0 _ _ _ _)).
  - repeat constructor.
  - discriminate.
  - simpl. repeat split; reflexivity.
  - simpl. lia.
Defined.

(** C6.  When the platform has answered the first pages with [docs], each
    saying there is more, and the next request raises a
    [RequestException], the fetcher logs the error, makes no further
    request, and returns normally the frame of the entries of [docs], the
    date columns converted.  A platform that answers the same pages and
    then an empty last page makes the fetcher return the very same value:
    nothing in what is returned tells the cut inventory from a complete
    one. *)
Theorem fetch_cloud_agents_transport_error :
  forall (remote : Remote) (str_lower : string -> string)
         (to_datetime : list string -> nat -> Timestamp)
         (docs : list Document) (msg : string) (fuel : nat) (w : World),
    Forall (fun d => hasMoreRecords d = Some "true"%string) docs ->
    served remote (trace w) 1 docs ->
    remote (trace w ++ searches 1 (length docs))
           (SearchCall "QAGENT" 1000 (1 + 1000 * Z.of_nat (length docs)))
    = Raises (RequestException msg) ->
    length docs < fuel ->
    fetch_cloud_agents remote str_lower to_datetime fuel w =
    (Returned
       (convert_timestamps to_datetime
          (reindex (map (row_of_entry str_lower) (flat_map host_assets docs)))),
     mkWorld (log w ++ [MsgFetching; MsgFetchError (RequestException msg)])
             (trace w ++ searches 1 (S (length docs)))) /\
    forall (remote' : Remote) (last : Document),
      served remote' (trace w) 1 (docs ++ [last]) ->
      host_assets last = [] ->
      hasMoreRecords last <> Some "true"%string ->
      value (fetch_cloud_agents remote' str_lower to_datetime fuel w) =
      value (fetch_cloud_agents remote str_lower to_datetime fuel w).
Proof.
  intros remote str_lower to_datetime docs msg fuel w Hmore Hs Herr Hfuel.
  assert (Hrun :
    fetch_cloud_agents remote str_lower to_datetime fuel w =
    (Returned
       (convert_timestamps to_datetime
          (reindex (map (row_of_entry str_lower) (flat_map host_assets docs)))),
     mkWorld (log w ++ [MsgFetching; MsgFetchError (RequestException msg)])
             (trace w ++ searches 1 (S (length docs))))).
  { unfold fetch_cloud_agents, bind at 1, log_debug.
    replace fuel with (length docs + S (fuel - S (length docs))) by lia.
    unfold bind at 1. change (@nil (Label * Row string)) with (@reindex string []).
    rewrite (fetch_loop_pages remote str_lower docs Hmore _ _ _
               (mkWorld (log w ++ [MsgFetching]) (trace w)) Hs).
    cbn [fetch_loop log trace app]. unfold bind at 1.
    rewrite (fetch_page_request_exception remote str_lower _ _
               (mkWorld (log w ++ [MsgFetching])
                        (trace w ++ searches 1 (length docs))) msg Herr).
    unfold ret. cbn [log trace].
    rewrite searches_snoc, <- !app_assoc. reflexivity. }
  split; [exact Hrun|].
  intros remote' last Hs' Hempty Hlast.
  rewrite Hrun.
  rewrite (fetch_cloud_agents_complete remote' str_lower to_datetime docs last
             fuel w Hmore Hlast Hs' Hfuel).
  unfold value. cbn [fst].
  rewrite flat_map_app. cbn [flat_map]. rewrite Hempty, !app_nil_r. reflexivity.
Qed.

Lemma fetch_cloud_agents_transport_error_witness :
  fetch_cloud_agents failing_remote lower no_datetime 2 w0 =
  (Returned [(0, mkRow "1" "host-a" "10.0.0.1" NaT NaT)],
   mkWorld [MsgFetching; MsgFetchError (RequestException "503 Server Error")]
           [EvPost (SearchCall "QAGENT" 1000 1);
            EvPost (SearchCall "QAGENT" 1000 1001)]) /\
  value (fetch_cloud_agents short_remote lower no_datetime 2 w0) =
  value (fetch_cloud_agents failing_remote lower no_datetime 2 w0).
Proof.
  assert (H1 : Forall (fun d => hasMoreRecords d = Some "true"%string) [page1])
    by (repeat constructor).
  assert (H2 : served failing_remote (trace w0) 1 [page1])
    by (simpl; repeat split; reflexivity).
  assert (H3 : length [page1] < 2) by (simpl; lia).
  destruct (fetch_cloud_agents_transport_error failing_remote lower no_datetime
              [page1] "503 Server Error" 2 w0 H1 H2 eq_refl H3) as [Hrun Hsame].
  split; [exact Hrun|].
  apply (Hsame short_remote empty_last_page).
  - simpl. repeat split; reflexivity.
  - reflexivity.
  - discriminate.
Defined.

(* ================================================================== *)
(** * The index of a fetched inventory *)

Lemma index_convert_timestamps (to_datetime : list string -> nat -> Timestamp)
  (df : DataFrame string) :
  index (convert_timestamps to_datetime df) = index df.
Proof.
  unfold convert_timestamps, index. rewrite map_map. cbn [fst].
  generalize 0 as s.
  induction df as [|x df IH]; intros s; simpl; [reflexivity|].
  rewrite IH. reflexivity.
Qed.

Lemma fetch_loop_reindexed (remote : Remote) (str_lower : string -> string)
  (fuel : nat) :
  forall (offset : Z) (rows : list (Row string)) (w w' : World)
         (df : DataFrame string),
    fetch_loop remote str_lower fuel offset (reindex rows) w = (Returned df, w') ->
    exists rows', df = reindex rows'.
Proof.
  induction fuel as [|fuel IH]; intros offset rows w w' df H.
  - discriminate H.
  - cbn [fetch_loop] in H. unfold bind at 1 in H.
    destruct (remote (trace w) (SearchCall "QAGENT" 1000 offset)) as [e|root] eqn:E.
    + destruct e as [msg|msg].
      * rewrite (fetch_page_request_exception remote str_lower _ _ _ msg E) in H.
        injection H as <- _. eauto.
      * unfold fetch_page, try_except, bind, requests_post, tracking_method in H.
        rewrite E in H. discriminate H.
    + rewrite (fetch_page_responds remote str_lower _ _ _ root E) in H.
      rewrite append_entries_reindex in H.
      destruct (opt_eqb (hasMoreRecords root) "true").
      * apply IH in H. exact H.
      * injection H as <- _. eauto.
Qed.

(** X6.  Whatever the platform does, a frame the fetcher returns is indexed
    0, 1, 2, ...: its labels are distinct. *)
Lemma fetch_cloud_agents_index (remote : Remote) (str_lower : string -> string)
  (to_datetime : list string -> nat -> Timestamp) (fuel : nat)
  (w w' : World) (df : DataFrame Timestamp) :
  fetch_cloud_agents remote str_lower to_datetime fuel w = (Returned df, w') ->
  index df = seq 0 (length df) /\ NoDup (index df).
Proof.
  unfold fetch_cloud_agents, bind at 1, log_debug. unfold bind at 1.
  change (@nil (Label * Row string)) with (@reindex string []).
  destruct (fetch_loop remote str_lower fuel 1 (reindex [])
              (mkWorld (log w ++ [MsgFetching]) (trace w))) as [[raw|e|] w1] eqn:E;
    try discriminate.
  intros H. injection H as <- _.
  apply fetch_loop_reindexed in E. destruct E as (rows & ->).
  assert (Hi : index (convert_timestamps to_datetime (reindex rows))
               = seq 0 (length (convert_timestamps to_datetime (reindex rows)))).
  { rewrite index_convert_timestamps, index_reindex.
    f_equal. rewrite <- (length_map fst (convert_timestamps _ _)).
    fold (index (convert_timestamps to_datetime (reindex rows))).
    rewrite index_convert_timestamps, index_reindex, length_seq. reflexivity. }
  split; [exact Hi|]. rewrite Hi. apply seq_NoDup.
Qed.

(* ================================================================== *)
(** * More on the inventory fetcher: any platform *)

Lemma fetch_page_parse_error (remote : Remote) (str_lower : string -> string)
  (offset : Z) (agents_data : DataFrame string) (w : World) (msg : string) :
  remote (trace w) (SearchCall "QAGENT" 1000 offset) = Raises (ParseError msg) ->
  fetch_page remote str_lower offset agents_data w =
  (Raised (ParseError msg),
   mkWorld (log w) (trace w ++ [EvPost (SearchCall "QAGENT" 1000 offset)])).
Proof.
  intros H. unfold fetch_page, try_except, bind, requests_post, tracking_method.
  rewrite H. reflexivity.
Qed.

(** The four ways one turn of the loop can go. *)
Lemma fetch_page_cases (remote : Remote) (str_lower : string -> string)
  (offset : Z) (agents_data : DataFrame string) (w : World) :
  let posted := trace w ++ [EvPost (SearchCall "QAGENT" 1000 offset)] in
  (exists msg,
      fetch_page remote str_lower offset agents_data w =
      (Returned (Break (offset, agents_data)),
       mkWorld (log w ++ [MsgFetchError (RequestException msg)]) posted)) \/
  (exists msg,
      fetch_page remote str_lower offset agents_data w =
      (Raised (ParseError msg), mkWorld (log w) posted)) \/
  (exists agents_data',
      fetch_page remote str_lower offset agents_data w =
      (Returned (Break (offset, agents_data')), mkWorld (log w) posted)) \/
  (exists root,
      remote (trace w) (SearchCall "QAGENT" 1000 offset) = Responds root /\
      hasMoreRecords root = Some "true"%string /\
      fetch_page remote str_lower offset agents_data w =
      (Returned (Continue (offset + 1000,
                           append_entries str_lower agents_data (host_assets root))%Z),
       mkWorld (log w) posted)).
Proof.
  intros posted.
  destruct (remote (trace w) (SearchCall "QAGENT" 1000 offset)) as [[msg|msg]|root] eqn:E.
  - left. exists msg. apply fetch_page_request_exception. exact E.
  - right. left. exists msg. apply fetch_page_parse_error. exact E.
  - right. right.
    pose proof (fetch_page_responds remote str_lower offset agents_data w root E) as H.
    destruct (opt_eqb (hasMoreRecords root) "true") eqn:M.
    + right. exists root. apply opt_eqb_eq in M. auto.
    + left. eauto.
Qed.

Lemma searches_one (offset : Z) :
  searches offset 1 = [EvPost (SearchCall "QAGENT" 1000 offset)].
Proof. rewrite searches_S. reflexivity. Qed.

Lemma fetch_loop_trace (remote : Remote) (str_lower : string -> string)
  (fuel : nat) :
  forall (offset : Z) (agents_data : DataFrame string) (w : World),
    exists n,
      n <= fuel /\
      trace (snd (fetch_loop remote str_lower fuel offset agents_data w)) =
      trace w ++ searches offset n.
Proof.
  induction fuel as [|fuel IH]; intros offset agents_data w.
  - exists 0. simpl. rewrite app_nil_r. auto.
  - cbn [fetch_loop]. unfold bind at 1.
    destruct (fetch_page_cases remote str_lower offset agents_data w)
      as [(msg & H)|[(msg & H)|[(d & H)|(root & _ & _ & H)]]]; rewrite H.
    + exists 1. rewrite searches_one. split; [lia|reflexivity].
    + exists 1. rewrite searches_one. split; [lia|reflexivity].
    + exists 1. rewrite searches_one. split; [lia|reflexivity].
    + destruct (IH (offset + 1000)%Z
                   (append_entries str_lower agents_data (host_assets root))
                   (mkWorld (log w)
                      (trace w ++ [EvPost (SearchCall "QAGENT" 1000 offset)])))
        as (n & Hn & Ht).
      exists (S n). split; [lia|].
      rewrite Ht, searches_S. cbn [trace]. rewrite <- app_assoc. reflexivity.
Qed.

Lemma uninstall_calls_searches (offset : Z) (n : nat) :
  uninstall_calls (searches offset n) = [].
Proof.
  unfold searches. induction (seq 0 n) as [|i l IH]; simpl; auto.
Qed.

(** X1.  Whatever the platform answers, the fetcher posts nothing but page
    requests: for tracking method "QAGENT", page size 1000, at the offsets 1,
    1001, 2001, ... in this order, at most one per unit of fuel; so it never
    posts an uninstall request. *)
Theorem fetch_cloud_agents_only_searches :
  forall (remote : Remote) (str_lower : string -> string)
         (to_datetime : list string -> nat -> Timestamp) (fuel : nat) (w : World),
    exists n,
      n <= fuel /\
      trace (snd (fetch_cloud_agents remote str_lower to_datetime fuel w)) =
      trace w ++
      map (fun i => EvPost (SearchCall "QAGENT" 1000 (1 + 1000 * Z.of_nat i)))
          (seq 0 n) /\
      uninstall_calls
        (trace (snd (fetch_cloud_agents remote str_lower to_datetime fuel w))) =
      uninstall_calls (trace w).
Proof.
  intros remote str_lower to_datetime fuel w.
  destruct (fetch_loop_trace remote str_lower fuel 1 []
              (mkWorld (log w ++ [MsgFetching]) (trace w))) as (n & Hn & Ht).
  exists n. split; [exact Hn|].
  assert (E : trace (snd (fetch_cloud_agents remote str_lower to_datetime fuel w))
              = trace w ++ searches 1 n).
  { unfold fetch_cloud_agents, bind at 1, log_debug. unfold bind at 1.
    destruct (fetch_loop remote str_lower fuel 1 []
                (mkWorld (log w ++ [MsgFetching]) (trace w))) as [[d|e|] w1];
      exact Ht. }
  split; [exact E|].
  rewrite E, uninstall_calls_app, uninstall_calls_searches, app_nil_r.
  reflexivity.
Qed.

Lemma fetch_loop_no_request_exception (remote : Remote)
  (str_lower : string -> string) (fuel : nat) :
  forall (offset : Z) (agents_data : DataFrame string) (w : World) (msg : string),
    fst (fetch_loop remote str_lower fuel offset agents_data w)
    <> Raised (RequestException msg).
Proof.
  induction fuel as [|fuel IH]; intros offset agents_data w msg.
  - discriminate.
  - cbn [fetch_loop]. unfold bind at 1.
    destruct (fetch_page_cases remote str_lower offset agents_data w)
      as [(m & H)|[(m & H)|[(d & H)|(root & _ & _ & H)]]]; rewrite H;
      try discriminate.
    apply IH.
Qed.

(** X2.  Whatever the platform answers and on whichever page, the fetcher
    never lets a [RequestException] out: it returns, raises some other
    exception, or keeps running. *)
Theorem fetch_cloud_agents_absorbs_request_exceptions :
  forall (remote : Remote) (str_lower : string -> string)
         (to_datetime : list string -> nat -> Timestamp) (fuel : nat)
         (w : World) (msg : string),
    value (fetch_cloud_agents remote str_lower to_datetime fuel w)
    <> Raised (RequestException msg).
Proof.
  intros remote str_lower to_datetime fuel w msg.
  unfold value, fetch_cloud_agents, bind at 1, log_debug. unfold bind at 1.
  pose proof (fetch_loop_no_request_exception remote str_lower fuel 1 []
                (mkWorld (log w ++ [MsgFetching]) (trace w)) msg) as H.
  destruct (fetch_loop remote str_lower fuel 1 []
              (mkWorld (log w ++ [MsgFetching]) (trace w))) as [[d|e|] w1];
    simpl in *; congruence.
Qed.

(** X3.  A page that is not well-formed XML is not absorbed: when the pages
    [docs] were answered, each saying there is more, and the next answer
    makes the parser raise, the fetcher raises that [ParseError] to its
    caller.  Nothing is logged about it and the rows accumulated from [docs]
    are not returned. *)
Theorem fetch_cloud_agents_parse_error :
  forall (remote : Remote) (str_lower : string -> string)
         (to_datetime : list string -> nat -> Timestamp)
         (docs : list Document) (msg : string) (fuel : nat) (w : World),
    Forall (fun d => hasMoreRecords d = Some "true"%string) docs ->
    served remote (trace w) 1 docs ->
    remote (trace w ++ searches 1 (length docs))
           (SearchCall "QAGENT" 1000 (1 + 1000 * Z.of_nat (length docs)))
    = Raises (ParseError msg) ->
    length docs < fuel ->
    fetch_cloud_agents remote str_lower to_datetime fuel w =
    (Raised (ParseError msg),
     mkWorld (log w ++ [MsgFetching]) (trace w ++ searches 1 (S (length docs)))).
Proof.
  intros remote str_lower to_datetime docs msg fuel w Hmore Hs Herr Hfuel.
  unfold fetch_cloud_agents, bind at 1, log_debug.
  replace fuel with (length docs + S (fuel - S (length docs))) by lia.
  unfold bind at 1. change (@nil (Label * Row string)) with (@reindex string []).
  rewrite (fetch_loop_pages remote str_lower docs Hmore _ _ _
             (mkWorld (log w ++ [MsgFetching]) (trace w)) Hs).
  cbn [fetch_loop log trace app]. unfold bind at 1.
  rewrite (fetch_page_parse_error remote str_lower _ _
             (mkWorld (log w ++ [MsgFetching])
                      (trace w ++ searches 1 (length docs))) msg Herr).
  cbn [log trace]. rewrite searches_snoc, <- !app_assoc. reflexivity.
Qed.

Lemma fetch_cloud_agents_parse_error_witness :
  fetch_cloud_agents malformed_remote lower no_datetime 2 w0 =
  (Raised (ParseError "not well-formed (invalid token)"),
   mkWorld [MsgFetching]
           [EvPost (SearchCall "QAGENT" 1000 1);
            EvPost (SearchCall "QAGENT" 1000 1001)]).
Proof.
  refine (fetch_cloud_agents_parse_error malformed_remote lower no_datetime
            [page1] "not well-formed (invalid token)" 2 w0 _ _ eq_refl _).
  - repeat constructor.
  - simpl. repeat split; reflexivity.
  - simpl. lia.
Defined.

Lemma fetch_cloud_agents_index_witness :
  index [(0, mkRow "1" "host-a" "10.0.0.1" NaT NaT);
         (1, mkRow "2" "host-b" "" NaT NaT)] = seq 0 2 /\
  NoDup (index [(0, mkRow "1" "host-a" "10.0.0.1" NaT NaT);
                (1, mkRow "2" "host-b" "" NaT NaT)]).
Proof.
  exact (fetch_cloud_agents_index two_page_remote lower no_datetime 2 w0
           (mkWorld [MsgFetching]
                    [EvPost (SearchCall "QAGENT" 1000 1);
                     EvPost (SearchCall "QAGENT" 1000 1001)])
           [(0, mkRow "1" "host-a" "10.0.0.1" NaT NaT);
            (1, mkRow "2" "host-b" "" NaT NaT)]
           eq_refl).
Defined.

Lemma fetch_loop_endless (remote : Remote) (str_lower : string -> string) :
  (forall tr offset, exists root,
      remote tr (SearchCall "QAGENT" 1000 offset) = Responds root /\
      hasMoreRecords root = Some "true"%string) ->
  forall (fuel : nat) (offset : Z) (agents_data : DataFrame string) (w : World),
    fst (fetch_loop remote str_lower fuel offset agents_data w) = OutOfFuel.
Proof.
  intros Hmore. induction fuel as [|fuel IH]; intros offset agents_data w.
  - reflexivity.
  - cbn [fetch_loop]. unfold bind at 1.
    destruct (Hmore (trace w) offset) as (root & Hr & Hm).
    rewrite (fetch_page_responds remote str_lower offset agents_data w root Hr).
    apply opt_eqb_eq in Hm. rewrite Hm. apply IH.
Qed.

(** X4.  The loop has no bound of its own: against a platform whose every
    page says there is more, the fetcher does not come to an end, however
    many pages it is allowed. *)
Theorem fetch_cloud_agents_endless :
  forall (remote : Remote) (str_lower : string -> string)
         (to_datetime : list string -> nat -> Timestamp),
    (forall tr offset, exists root,
        remote tr (SearchCall "QAGENT" 1000 offset) = Responds root /\
        hasMoreRecords root = Some "true"%string) ->
    forall (fuel : nat) (w : World),
      value (fetch_cloud_agents remote str_lower to_datetime fuel w) = OutOfFuel.
Proof.
  intros remote str_lower to_datetime Hmore fuel w.
  unfold value, fetch_cloud_agents, bind at 1, log_debug. unfold bind at 1.
  pose proof (fetch_loop_endless remote str_lower Hmore fuel 1 []
                (mkWorld (log w ++ [MsgFetching]) (trace w))) as H.
  destruct (fetch_loop remote str_lower fuel 1 []
              (mkWorld (log w ++ [MsgFetching]) (trace w))) as [[d|e|] w1];
    simpl in *; congruence.
Qed.

Lemma fetch_cloud_agents_endless_witness :
  value (fetch_cloud_agents endless_remote lower no_datetime 7 w0) = OutOfFuel.
Proof.
  apply (fetch_cloud_agents_endless endless_remote lower no_datetime).
  intros tr offset. exists page1. split; reflexivity.
Defined.

(* ================================================================== *)
(** * More on the agent remover *)

Lemma remove_one_live_world (remote : Remote) (agent : Row Timestamp) (w : World) :
  exists w1,
    remove_one remote agent false w = (Returned tt, w1) /\
    trace w1 = trace w ++ [EvSleep; EvPost (UninstallCall (id agent))] /\
    length (log w1) = length (log w) + 2.
Proof.
  destruct (remote (trace w ++ [EvSleep]) (UninstallCall (id agent))) as [e|root] eqn:E.
  - eexists. split; [apply (remove_one_raises remote agent w e E)|].
    cbn [log trace]. rewrite length_app. auto.
  - eexists. split; [apply (remove_one_responds remote agent w root E)|].
    cbn [log trace]. rewrite length_app. auto.
Qed.

Lemma remove_each_live_world (remote : Remote) (agents : DataFrame Timestamp) :
  forall w : World,
    exists w',
      remove_each remote agents false w = (Returned tt, w') /\
      trace w' =
      trace w ++
      flat_map (fun x => [EvSleep; EvPost (UninstallCall (id (snd x)))]) agents /\
      length (log w') = length (log w) + 2 * length agents.
Proof.
  induction agents as [|[l agent] rest IH]; intros w.
  - exists w. simpl. rewrite app_nil_r. auto.
  - destruct (remove_one_live_world remote agent w) as (w1 & H1 & T1 & L1).
    destruct (IH w1) as (w' & H' & T' & L').
    exists w'. split; [|split].
    + rewrite (remove_each_cons remote l agent rest false w w1 H1). exact H'.
    + rewrite T', T1, <- app_assoc. reflexivity.
    + rewrite L', L1. cbn [length]. lia.
Qed.

(** X7.  A live run makes, for every candidate in turn, one pause followed
    by one uninstall request for that candidate's id, and nothing else:
    no request is repeated, none is made without the pause before it, and
    no page request is made.  It logs the opening line and two lines per
    candidate, whatever the platform answers. *)
Theorem remove_cloud_agents_live_trace :
  forall (remote : Remote) (agents : DataFrame Timestamp) (w : World),
    exists w',
      remove_cloud_agents remote agents false w = (Returned tt, w') /\
      trace w' =
      trace w ++
      flat_map (fun x => [EvSleep; EvPost (UninstallCall (id (snd x)))]) agents /\
      length (log w') = length (log w) + 1 + 2 * length agents.
Proof.
  intros remote agents w. unfold remove_cloud_agents, bind at 1, log_debug.
  destruct (remove_each_live_world remote agents
              (mkWorld (log w ++ [MsgStartRemoval]) (trace w)))
    as (w' & H & T & L).
  exists w'. split; [exact H|]. split; [exact T|].
  rewrite L. cbn [log]. rewrite length_app. reflexivity.
Qed.

(* ================================================================== *)
(** * More on the duplicate selector *)

Lemma precedes_unfilter (A : Type) (p : A -> bool) (l : list A) (a b : A) :
  precedes (filter p l) a b -> precedes l a b.
Proof.
  induction l as [|x l IH]; simpl; intros H.
  - destruct (precedes_nil H).
  - apply precedes_cons. destruct (p x).
    + apply precedes_cons in H. destruct H as [[E Hb]|H]; [left|right; auto].
      split; [exact E|]. apply filter_In in Hb. tauto.
    + right. auto.
Qed.

(** X8.  The frame the selector returns is in the order of its sort: by
    hostname, then address, then [modified] from latest to earliest, then
    [created] from earliest to latest, missing values last; no candidate
    stands before one that the comparison puts strictly first. *)
Theorem find_duplicate_agents_sorted :
  forall (inv : DataFrame Timestamp) (w : World),
    exists to_remove w',
      find_duplicate_agents inv w = (Returned to_remove, w') /\
      forall a b, precedes to_remove a b -> row_compare (snd a) (snd b) <> Gt.
Proof.
  intros inv w. eexists (marked inv), _.
  split; [apply find_duplicate_agents_run|].
  intros a b P. unfold marked in P. apply precedes_unfilter in P.
  apply sort_values_ordered in P. unfold row_leb, leb_of in P.
  intros G. rewrite G in P. discriminate.
Qed.

Lemma count_key_In (T : Type) (df : DataFrame T) (y : Label * Row T) :
  In y df -> 1 <= count_key (key_of (snd y)) (col (@key_of T) df).
Proof.
  unfold col. induction df as [|x df IH]; cbn [map count_key In]; intros H; [tauto|].
  destruct H as [->|H].
  - rewrite key_eqb_refl. lia.
  - specialize (IH H). lia.
Qed.

Lemma count_key_two (T : Type) (df : DataFrame T) (y z : Label * Row T) :
  In y df -> In z df -> y <> z -> key_of (snd y) = key_of (snd z) ->
  2 <= count_key (key_of (snd y)) (col (@key_of T) df).
Proof.
  unfold col.
  induction df as [|x df IH]; cbn [map count_key In]; intros Hy Hz Hne K; [tauto|].
  destruct Hy as [Hy|Hy], Hz as [Hz|Hz].
  - congruence.
  - subst x. rewrite key_eqb_refl. rewrite K.
    pose proof (count_key_In T df z Hz) as H. unfold col in H. lia.
  - subst x. rewrite K, key_eqb_refl, <- K.
    pose proof (count_key_In T df y Hy) as H. unfold col in H. lia.
  - specialize (IH Hy Hz Hne K). lia.
Qed.

(** X9.  A record whose [modified] did not parse is never the one kept
    when a record of its group has a [modified]; and among records with the
    same [modified], one whose [created] did not parse is never kept when
    another has a [created]: in both cases it is returned for removal. *)
Theorem find_duplicate_agents_unparsed_is_removed :
  forall (inv : DataFrame Timestamp) (w : World) (y z : Label * Row Timestamp),
    NoDup (index inv) ->
    In y inv -> In z inv ->
    key_of (snd y) = key_of (snd z) ->
    (modified (snd y) = NaT /\ modified (snd z) <> NaT) \/
    (modified (snd y) = modified (snd z) /\
     created (snd y) = NaT /\ created (snd z) <> NaT) ->
    exists to_remove w',
      find_duplicate_agents inv w = (Returned to_remove, w') /\
      In y to_remove.
Proof.
  intros inv w y z Hnd Hy Hz K Hcase.
  eexists (marked inv), _. split; [apply find_duplicate_agents_run|].
  assert (Hne : y <> z).
  { intros ->. destruct Hcase as [[H1 H2]|(_ & H1 & H2)]; congruence. }
  pose proof (count_key_two Timestamp inv y z Hy Hz Hne K) as Hk.
  destruct (@marked_group inv (key_of (snd y)) Hnd Hk)
    as (kept & Hin & Kk & _ & Hall).
  destruct (Nat.eq_dec (fst y) (fst kept)) as [El|Nl].
  - assert (y = kept)
      by (apply (@distinct_image_inj _ _ fst inv); assumption).
    subst kept. exfalso.
    assert (Hzk : z <> y) by congruence.
    destruct (Hall z Hz (eq_sym K) Hzk) as [_ P].
    apply sort_values_ordered in P.
    destruct (@row_leb_same_key y z K P) as [H1 H2].
    destruct Hcase as [[Hy1 Hz1]|(Em & Hy1 & Hz1)].
    + rewrite Hy1 in H1.
      destruct (modified (snd z)); [exact H1|exact (Hz1 eq_refl)].
    + specialize (H2 (eq_sym Em)). rewrite Hy1 in H2.
      destruct (created (snd z)); [exact H2|exact (Hz1 eq_refl)].
  - apply Hall; trivial. congruence.
Qed.

Lemma find_duplicate_agents_unparsed_is_removed_witness :
  exists to_remove w',
    find_duplicate_agents unparsed_modified_inventory w0 = (Returned to_remove, w') /\
    In (0, mkRow "1" "host-a" "10.0.0.1" (Some 100%Z) NaT) to_remove.
Proof.
  apply (find_duplicate_agents_unparsed_is_removed unparsed_modified_inventory w0
           (0, mkRow "1" "host-a" "10.0.0.1" (Some 100%Z) NaT)
           (1, mkRow "2" "host-a" "10.0.0.1" (Some 100%Z) (Some 200%Z))).
  - nodup.
  - simpl; auto.
  - simpl; auto.
  - reflexivity.
  - left. split; [reflexivity|discriminate].
Defined.

Lemma count_key_app (k : Key) (ks1 ks2 : list Key) :
  count_key k (ks1 ++ ks2) = count_key k ks1 + count_key k ks2.
Proof.
  induction ks1 as [|k' ks1 IH]; simpl; [reflexivity|]. rewrite IH. lia.
Qed.

Lemma duplicates_with_fresh_row (inv : DataFrame Timestamp)
  (x : Label * Row Timestamp) :
  (forall y, In y inv -> key_of (snd y) <> key_of (snd x)) ->
  filter (is_duplicated (inv ++ [x])) (inv ++ [x]) = filter (is_duplicated inv) inv.
Proof.
  intros Hfresh. rewrite filter_app.
  assert (Hx : is_duplicated (inv ++ [x]) x = false).
  { unfold is_duplicated, col. rewrite map_app, count_key_app.
    cbn [map count_key]. rewrite key_eqb_refl.
    rewrite count_key_not_In; [reflexivity|].
    rewrite in_map_iff. intros (y & E & Hy). apply (Hfresh y Hy). exact E. }
  cbn [filter]. rewrite Hx, app_nil_r.
  apply filter_ext_in. intros y Hy.
  unfold is_duplicated, col. rewrite map_app, count_key_app.
  cbn [map count_key].
  replace (key_eqb (key_of (snd y)) (key_of (snd x))) with false.
  - rewrite !Nat.add_0_r. reflexivity.
  - symmetry. apply key_eqb_neq. auto.
Qed.

(** X10.  A record appended to the inventory whose (hostname, address) pair
    no other record has changes nothing: the selector returns the same
    frame with it as without it. *)
Theorem find_duplicate_agents_ignores_unique_row :
  forall (inv : DataFrame Timestamp) (x : Label * Row Timestamp) (w : World),
    (forall y, In y inv -> key_of (snd y) <> key_of (snd x)) ->
    value (find_duplicate_agents (inv ++ [x]) w) =
    value (find_duplicate_agents inv w).
Proof.
  intros inv x w Hfresh. rewrite !find_duplicate_agents_run.
  unfold value. cbn [fst]. f_equal.
  unfold marked. rewrite (duplicates_with_fresh_row inv x Hfresh). reflexivity.
Qed.

Lemma find_duplicate_agents_ignores_unique_row_witness :
  value (find_duplicate_agents (scenario_inventory ++ [host_b_row]) w0) =
  value (find_duplicate_agents scenario_inventory w0).
Proof.
  apply (find_duplicate_agents_ignores_unique_row scenario_inventory host_b_row w0).
  intros y Hy. simpl in Hy. destruct Hy as [E|[E|[]]]; subst y; discriminate.
Defined.





Lemma dry_run_of_remove_cloud_agents (remote : Remote)
  (agents : DataFrame Timestamp) (w : World) :
  remove_cloud_agents remote agents true w =
  (Returned tt,
   mkWorld (log w ++ MsgStartRemoval ::
              map (fun x => MsgAgent true (id (snd x)) (hostname (snd x))
                                     (address (snd x))) agents)
           (trace w)).
Proof.
  unfold remove_cloud_agents, bind at 1, log_debug.
  rewrite remove_each_dry_run. cbn [log trace].
  rewrite <- app_assoc. reflexivity.
Qed.

(* ================================================================== *)
(** * The whole run: [main] *)

Lemma fetch_cloud_agents_trace (remote : Remote) (str_lower : string -> string)
  (to_datetime : list string -> nat -> Timestamp) (fuel : nat) (w w1 : World)
  (r : Result (DataFrame Timestamp)) :
  fetch_cloud_agents remote str_lower to_datetime fuel w = (r, w1) ->
  exists n, n <= fuel /\ trace w1 = trace w ++ searches 1 n.
Proof.
  intros H.
  destruct (fetch_loop_trace remote str_lower fuel 1 []
              (mkWorld (log w ++ [MsgFetching]) (trace w))) as (n & Hn & Ht).
  exists n. split; [exact Hn|].
  unfold fetch_cloud_agents, log_debug in H.
  unfold bind at 1 in H. unfold bind at 1 in H.
  destruct (fetch_loop remote str_lower fuel 1 []
              (mkWorld (log w ++ [MsgFetching]) (trace w))) as [[d|e|] w2];
    injection H as _ <-; exact Ht.
Qed.

(** [main], one stage after the other. *)
Lemma main_unfold (remote : Remote) (str_lower : string -> string)
  (to_datetime : list string -> nat -> Timestamp) (fuel : nat) (dry_run : bool)
  (w : World) :
  main remote str_lower to_datetime fuel dry_run w =
  match fetch_cloud_agents remote str_lower to_datetime fuel w with
  | (Returned inv, w1) =>
      match inv with
      | [] => (Returned tt, mkWorld (log w1 ++ [MsgNoAgents]) (trace w1))
      | _ :: _ =>
          let w2 :=
            mkWorld (log w1 ++ [MsgIdentifying;
                                MsgFound (length (filter (is_duplicated inv) inv));
                                MsgMarked (length (marked inv))])
                    (trace w1) in
          match marked inv with
          | [] => (Returned tt, mkWorld (log w2 ++ [MsgNoDuplicates]) (trace w2))
          | _ :: _ =>
              match remove_cloud_agents remote (marked inv) dry_run w2 with
              | (Returned _, w3) =>
                  if dry_run
                  then (Returned tt, mkWorld (log w3 ++ [MsgDryRunEnabled]) (trace w3))
                  else (Returned tt, w3)
              | (Raised e, w3) =>
                  (Returned tt, mkWorld (log w3 ++ [MsgUnexpected e]) (trace w3))
              | (OutOfFuel, w3) => (OutOfFuel, w3)
              end
          end
      end
  | (Raised e, w1) => (Returned tt, mkWorld (log w1 ++ [MsgUnexpected e]) (trace w1))
  | (OutOfFuel, w1) => (OutOfFuel, w1)
  end.
Proof.
  unfold main, try_except. unfold bind at 1.
  destruct (fetch_cloud_agents remote str_lower to_datetime fuel w)
    as [[inv|e|] w1]; try reflexivity.
  destruct inv as [|x inv]; [reflexivity|].
  cbn [empty]. unfold bind at 1. rewrite find_duplicate_agents_run.
  cbv zeta.
  destruct (marked (x :: inv)) as [|m ms]; [reflexivity|].
  cbn [empty negb]. unfold bind at 1.
  destruct (remove_cloud_agents remote (m :: ms) dry_run _) as [[u|e|] w3];
    destruct dry_run; reflexivity.
Qed.

(** X12.  No exception leaves [main]: it ends normally or, when the
    platform never stops announcing pages, does not end.  In particular an
    exception the fetcher raises is logged as unexpected, and then neither
    the selector nor the remover runs: nothing more is logged or
    requested. *)
Theorem main_never_raises :
  forall (remote : Remote) (str_lower : string -> string)
         (to_datetime : list string -> nat -> Timestamp) (fuel : nat)
         (dry_run : bool) (w : World),
    (forall e,
        value (main remote str_lower to_datetime fuel dry_run w) <> Raised e) /\
    (forall e w1,
        fetch_cloud_agents remote str_lower to_datetime fuel w = (Raised e, w1) ->
        main remote str_lower to_datetime fuel dry_run w =
        (Returned tt, mkWorld (log w1 ++ [MsgUnexpected e]) (trace w1))).
Proof.
  intros remote str_lower to_datetime fuel dry_run w. split.
  - intros e. rewrite main_unfold. unfold value.
    destruct (fetch_cloud_agents remote str_lower to_datetime fuel w)
      as [[inv|e'|] w1]; try discriminate.
    destruct inv as [|x inv]; [discriminate|]. cbv zeta.
    destruct (marked (x :: inv)) as [|m ms]; [discriminate|].
    destruct (remove_cloud_agents remote (m :: ms) dry_run _) as [[u|e'|] w3];
      destruct dry_run; discriminate.
  - intros e w1 H. rewrite main_unfold, H. reflexivity.
Qed.

Lemma main_never_raises_witness :
  main malformed_remote lower no_datetime 2 false w0 =
  (Returned tt,
   mkWorld [MsgFetching;
            MsgUnexpected (ParseError "not well-formed (invalid token)")]
           [EvPost (SearchCall "QAGENT" 1000 1);
            EvPost (SearchCall "QAGENT" 1000 1001)]).
Proof.
  exact (proj2 (main_never_raises malformed_remote lower no_datetime 2 false w0)
           (ParseError "not well-formed (invalid token)")
           (mkWorld [MsgFetching]
                    [EvPost (SearchCall "QAGENT" 1000 1);
                     EvPost (SearchCall "QAGENT" 1000 1001)])
           eq_refl).
Defined.

(** X13.  A dry run of the whole program posts page requests only, at the
    offsets 1, 1001, 2001, ... in this order: whatever the platform answers
    and whatever the inventory holds, no uninstall request is made and no
    pause is taken. *)
Theorem main_dry_run_only_searches :
  forall (remote : Remote) (str_lower : string -> string)
         (to_datetime : list string -> nat -> Timestamp) (fuel : nat) (w : World),
    exists n,
      n <= fuel /\
      trace (snd (main remote str_lower to_datetime fuel true w)) =
      trace w ++
      map (fun i => EvPost (SearchCall "QAGENT" 1000 (1 + 1000 * Z.of_nat i)))
          (seq 0 n).
Proof.
  intros remote str_lower to_datetime fuel w. rewrite main_unfold.
  destruct (fetch_cloud_agents remote str_lower to_datetime fuel w)
    as [r w1] eqn:E.
  destruct (fetch_cloud_agents_trace remote str_lower to_datetime fuel w w1 r E)
    as (n & Hn & Ht).
  exists n. split; [exact Hn|]. fold (searches 1 n). rewrite <- Ht.
  destruct r as [inv|e|]; try reflexivity.
  destruct inv as [|x inv]; [reflexivity|]. cbv zeta.
  destruct (marked (x :: inv)) as [|m ms]; [reflexivity|].
  rewrite dry_run_of_remove_cloud_agents. reflexivity.
Qed.

Lemma remove_cloud_agents_live_run (remote : Remote)
  (agents : DataFrame Timestamp) (w : World) :
  exists w',
    remove_cloud_agents remote agents false w = (Returned tt, w') /\
    uninstall_calls (trace w') =
    uninstall_calls (trace w) ++ col (@id Timestamp) agents.
Proof.
  unfold remove_cloud_agents, bind at 1, log_debug.
  destruct (remove_each_live remote agents
              (mkWorld (log w ++ [MsgStartRemoval]) (trace w))) as (w' & H & T).
  exists w'. split; assumption.
Qed.

(** X14.  A live run of the whole program uninstalls exactly what the
    selector picks from what the fetcher returned: when the fetcher returns
    an inventory from which the selector returns [to_remove], [main] ends
    normally having posted one uninstall request per row of [to_remove], in
    that order, and no other uninstall request. *)
Theorem main_live_uninstalls_candidates :
  forall (remote : Remote) (str_lower : string -> string)
         (to_datetime : list string -> nat -> Timestamp) (fuel : nat)
         (w w1 w2 : World) (inv to_remove : DataFrame Timestamp),
    fetch_cloud_agents remote str_lower to_datetime fuel w = (Returned inv, w1) ->
    find_duplicate_agents inv w1 = (Returned to_remove, w2) ->
    exists w',
      main remote str_lower to_datetime fuel false w = (Returned tt, w') /\
      uninstall_calls (trace w') =
      uninstall_calls (trace w) ++ col (@id Timestamp) to_remove.
Proof.
  intros remote str_lower to_datetime fuel w w1 w2 inv to_remove Hfetch Hfind.
  rewrite find_duplicate_agents_run in Hfind. injection Hfind as <- _.
  destruct (fetch_cloud_agents_trace remote str_lower to_datetime fuel w w1 _ Hfetch)
    as (n & _ & Ht).
  assert (Hu : uninstall_calls (trace w1) = uninstall_calls (trace w)).
  { rewrite Ht, uninstall_calls_app, uninstall_calls_searches, app_nil_r.
    reflexivity. }
  rewrite main_unfold, Hfetch.
  destruct inv as [|x inv].
  - eexists. split; [reflexivity|]. cbn [trace]. rewrite Hu.
    change (marked []) with (@nil (Label * Row Timestamp)).
    cbn [col map]. rewrite app_nil_r. reflexivity.
  - cbv zeta. destruct (marked (x :: inv)) as [|m ms] eqn:Em.
    + eexists. split; [reflexivity|]. cbn [trace col map].
      rewrite Hu, app_nil_r. reflexivity.
    + match goal with
      | |- context [remove_cloud_agents remote (m :: ms) false ?w2] =>
          destruct (remove_cloud_agents_live_run remote (m :: ms) w2)
            as (w3 & Hrun & Hcalls)
      end.
      rewrite Hrun. exists w3. split; [reflexivity|].
      rewrite Hcalls. cbn [trace]. rewrite Hu. reflexivity.
Qed.

Lemma main_live_uninstalls_candidates_witness :
  exists w',
    main duplicate_remote lower no_datetime 1 false w0 = (Returned tt, w') /\
    uninstall_calls (trace w') = ["2"%string].
Proof.
  exact (main_live_uninstalls_candidates duplicate_remote lower no_datetime 1
           w0
           (mkWorld [MsgFetching] [EvPost (SearchCall "QAGENT" 1000 1)])
           (mkWorld [MsgFetching; MsgIdentifying; MsgFound 2; MsgMarked 1]
                    [EvPost (SearchCall "QAGENT" 1000 1)])
           [(0, mkRow "1" "host-a" "10.0.0.1" NaT NaT);
            (1, mkRow "2" "host-a" "10.0.0.1" NaT NaT)]
           [(1, mkRow "2" "host-a" "10.0.0.1" NaT NaT)]
           eq_refl eq_refl).
Defined.

(** X15.  When the very first page request fails with a
    [RequestException], the whole program, live or dry, logs the error and
    that no agents were found, and stops there: one request was posted,
    the selector and the remover did not run. *)
Theorem main_unreachable_platform :
  forall (remote : Remote) (str_lower : string -> string)
         (to_datetime : list string -> nat -> Timestamp) (fuel : nat)
         (dry_run : bool) (w : World) (msg : string),
    remote (trace w) (SearchCall "QAGENT" 1000 1) = Raises (RequestException msg) ->
    0 < fuel ->
    main remote str_lower to_datetime fuel dry_run w =
    (Returned tt,
     mkWorld (log w ++ [MsgFetching; MsgFetchError (RequestException msg);
                        MsgNoAgents])
             (trace w ++ [EvPost (SearchCall "QAGENT" 1000 1)])).
Proof.
  intros remote str_lower to_datetime fuel dry_run w msg H Hfuel.
  rewrite main_unfold.
  destruct fuel as [|fuel]; [lia|].
  unfold fetch_cloud_agents, log_debug. unfold bind at 1. unfold bind at 1.
  cbn [fetch_loop]. unfold bind at 1.
  rewrite (fetch_page_request_exception remote str_lower 1 []
             (mkWorld (log w ++ [MsgFetching]) (trace w)) msg H).
  unfold ret. cbn [log trace convert_timestamps]. cbn.
  rewrite <- !app_assoc. reflexivity.
Qed.

Lemma main_unreachable_platform_witness :
  main unreachable_remote lower no_datetime 3 false w0 =
  (Returned tt,
   mkWorld [MsgFetching; MsgFetchError (RequestException "connection refused");
            MsgNoAgents]
           [EvPost (SearchCall "QAGENT" 1000 1)]).
Proof.
  apply (main_unreachable_platform unreachable_remote lower no_datetime 3 false w0
           "connection refused").
  - reflexivity.
  - lia.
Defined.

Lemma no_duplicates_when_keys_distinct (inv : DataFrame Timestamp) :
  NoDup (col (@key_of Timestamp) inv) ->
  filter (is_duplicated inv) inv = [] /\ marked inv = [].
Proof.
  intros Hnd.
  assert (E : filter (is_duplicated inv) inv = []).
  { apply filter_nil. intros x _. unfold is_duplicated. apply Nat.leb_gt.
    pose proof (@count_key_NoDup (key_of (snd x)) _ Hnd). lia. }
  split; [exact E|]. apply marked_no_duplicates. exact E.
Qed.

(** X16.  When the fetcher returns a non-empty inventory in which no two
    records share a (hostname, address) pair, the whole program, live or
    dry, logs that it found and marked nothing and that there are no
    duplicates, and ends without any further request: the remover does not
    run. *)
Theorem main_no_duplicates :
  forall (remote : Remote) (str_lower : string -> string)
         (to_datetime : list string -> nat -> Timestamp) (fuel : nat)
         (dry_run : bool) (w w1 : World) (inv : DataFrame Timestamp),
    fetch_cloud_agents remote str_lower to_datetime fuel w = (Returned inv, w1) ->
    inv <> [] ->
    NoDup (col (@key_of Timestamp) inv) ->
    main remote str_lower to_datetime fuel dry_run w =
    (Returned tt,
     mkWorld (log w1 ++ [MsgIdentifying; MsgFound 0; MsgMarked 0; MsgNoDuplicates])
             (trace w1)).
Proof.
  intros remote str_lower to_datetime fuel dry_run w w1 inv Hfetch Hne Hnd.
  rewrite main_unfold, Hfetch.
  destruct inv as [|x inv]; [congruence|]. cbv zeta.
  destruct (no_duplicates_when_keys_distinct (x :: inv) Hnd) as [E1 E2].
  rewrite E2, E1. cbn [log trace length]. rewrite <- app_assoc. reflexivity.
Qed.

Lemma main_no_duplicates_witness :
  main two_page_remote lower no_datetime 2 false w0 =
  (Returned tt,
   mkWorld [MsgFetching; MsgIdentifying; MsgFound 0; MsgMarked 0; MsgNoDuplicates]
           [EvPost (SearchCall "QAGENT" 1000 1);
            EvPost (SearchCall "QAGENT" 1000 1001)]).
Proof.
  apply (main_no_duplicates two_page_remote lower no_datetime 2 false w0
           (mkWorld [MsgFetching]
                    [EvPost (SearchCall "QAGENT" 1000 1);
                     EvPost (SearchCall "QAGENT" 1000 1001)])
           [(0, mkRow "1" "host-a" "10.0.0.1" NaT NaT);
            (1, mkRow "2" "host-b" "" NaT NaT)]).
  - reflexivity.
  - discriminate.
  - nodup.
Defined.

(* ================================================================== *)
(** * Where the rows of a fetched inventory come from *)




